(** * go-flagz: the etcd updater and the dynamic proto3 flag value

    A shallow embedding of the two Go sources of the repository,

    - the etcd [Updater] (package [etcd]): [New], [Initialize], [Start],
      [Stop], [readAllFlags], [setFlag], [watchForUpdates],
      [rollbackEtcdValue], [nodeToFlagName];
    - [DynProto3Value] (package [protoflagz]): [Get], [Set],
      [WithValidator], [WithNotifier], [String], [PrettyString];

    followed by the properties of the specification proved (or refuted)
    on it. *)

From Stdlib Require Import NArith ZArith Ascii String List Bool Lia.
From stdpp Require Import base option list strings gmap pretty.

Local Open Scope string_scope.

#[local] Set Warnings "-register-all".

(** ** The functions of Go's [strings] package that the code calls *)

Module GoStrings.

(** [len(s)], in bytes: a Go string is a byte sequence, and so is a
    [string] here. *)
Definition len (s : string) : nat := String.length s.

(** [s[n:]] *)
Fixpoint skip (n : nat) (s : string) : string :=
  match n, s with
  | O, _ => s
  | S _, EmptyString => EmptyString
  | S k, String _ t => skip k t
  end.

(** [strings.HasPrefix(s, prefix)] *)
Definition HasPrefix (s pre : string) : bool := String.prefix pre s.

(** [strings.HasSuffix(s, suffix)] *)
Definition HasSuffix (s suf : string) : bool :=
  String.prefix (String.rev suf) (String.rev s).

(** [strings.TrimPrefix(s, prefix)] *)
Definition TrimPrefix (s pre : string) : string :=
  if HasPrefix s pre then skip (len pre) s else s.

(** [strings.Count(s, substr)] for a non-empty [substr]: the number of
    non-overlapping occurrences.  [hold] is the number of bytes still
    covered by the occurrence just counted.  (For the empty [substr] Go
    returns the number of runes plus one; the updater only calls it with
    the separator ["/"].) *)
Fixpoint countFrom (hold : nat) (s substr : string) : nat :=
  match s with
  | EmptyString => O
  | String _ t =>
      match hold with
      | S k => countFrom k t substr
      | O =>
          if String.prefix substr s
          then S (countFrom (len substr - 1) t substr)
          else countFrom O t substr
      end
  end.

Definition Count (s substr : string) : nat := countFrom O s substr.

(** [strings.Join(a, sep)] *)
Fixpoint Join (a : list string) (sep : string) : string :=
  match a with
  | [] => ""
  | [x] => x
  | x :: rest => x ++ sep ++ Join rest sep
  end.

(** *** [strings.TrimSpace]

    [TrimSpace] removes the leading and trailing white space, as
    [unicode.IsSpace] defines it, from the UTF-8 text.  The white-space
    runes and their encodings are:
    U+0009..U+000D and U+0020 (one byte), U+0085 and U+00A0 (C2 85,
    C2 A0), U+1680 (E1 9A 80), U+2000..U+200A (E2 80 80..8A), U+2028,
    U+2029, U+202F (E2 80 A8, A9, AF), U+205F (E2 81 9F) and U+3000
    (E3 80 80).  A byte that does not start a well-formed encoding decodes
    to U+FFFD, which is no space, so trimming stops there. *)

Definition byte (c : ascii) : N := N_of_ascii c.

Definition isSpace1 (a : N) : bool :=
  ((9 <=? a) && (a <=? 13) || (a =? 32))%N.

Definition isSpace2 (a b : N) : bool :=
  ((a =? 194) && ((b =? 133) || (b =? 160)))%N.

Definition isSpace3 (a b c : N) : bool :=
  (((a =? 225) && (b =? 154) && (c =? 128))
   || ((a =? 226) && (b =? 128)
       && (((128 <=? c) && (c <=? 138)) || (c =? 168) || (c =? 169) || (c =? 175)))
   || ((a =? 226) && (b =? 129) && (c =? 159))
   || ((a =? 227) && (b =? 128) && (c =? 128)))%N.

(** The width in bytes of the white-space rune at the head of [s], [0]
    when [s] does not start with one. *)
Definition spaceWidth (s : string) : nat :=
  match s with
  | EmptyString => 0
  | String a t =>
      if isSpace1 (byte a) then 1
      else match t with
           | EmptyString => 0
           | String b t' =>
               if isSpace2 (byte a) (byte b) then 2
               else match t' with
                    | EmptyString => 0
                    | String c _ =>
                        if isSpace3 (byte a) (byte b) (byte c) then 3 else 0
                    end
           end
  end%nat.

(** The same for the rune at the end of the text, read on the reversed
    string (last byte first). *)
Definition spaceWidthRev (r : string) : nat :=
  match r with
  | EmptyString => 0
  | String c t =>
      if isSpace1 (byte c) then 1
      else match t with
           | EmptyString => 0
           | String b t' =>
               if isSpace2 (byte b) (byte c) then 2
               else match t' with
                    | EmptyString => 0
                    | String a _ =>
                        if isSpace3 (byte a) (byte b) (byte c) then 3 else 0
                    end
           end
  end%nat.

(** Strip white-space runes from the head, as long as there is one; each
    round removes at least one byte, so [len s] rounds are enough. *)
Fixpoint trimWith (width : string -> nat) (rounds : nat) (s : string) : string :=
  match rounds with
  | O => s
  | S k =>
      match width s with
      | O => s
      | S w => trimWith width k (skip (S w) s)
      end
  end.

Definition TrimLeftSpace (s : string) : string :=
  trimWith spaceWidth (len s) s.

Definition TrimRightSpace (s : string) : string :=
  String.rev (trimWith spaceWidthRev (len s) (String.rev s)).

Definition TrimSpace (s : string) : string :=
  TrimRightSpace (TrimLeftSpace s).

End GoStrings.

Import GoStrings.

(** ** Package [etcd]: the updater *)

Module Etcd.

(** *** The data of the etcd client that the updater reads *)

(** [etcd.Node].  Indices are [uint64] in the client; the updater only
    stores and compares them, so [N] without wrap-around models them. *)
Inductive Node : Type := mkNode {
  Key : string;
  Value : string;
  Dir : bool;
  ModifiedIndex : N;
  Nodes : list Node
}.

(** [etcd.Response]; [PrevNode] is a pointer that may be [nil]. *)
Record Response : Type := mkResponse {
  Action : string;
  RNode : Node;
  PrevNode : option Node;
  Index : N
}.

(** Error codes of the etcd v2 client ([client/keys.go]). *)
Definition ErrorCodeTestFailed : Z := 101.
Definition ErrorCodeEventIndexCleared : Z := 401.

(** The values of Go's [error] interface that the updater tells apart:
    by dynamic type ([etcd.Error], [*etcd.ClusterError]), by identity
    with a sentinel ([context.DeadlineExceeded], [context.Canceled] and
    the two package variables [errNoValue], [errFlagNotDynamic]), and
    every other error, of which only the message is ever used.  The two
    package variables are unexported, so no flag and no client can hand
    them back: an error of a collaborator with the same text is an
    [errorString]. *)
Inductive error : Type :=
| EtcdError (code : Z) (message cause : string) (index : N)
| ClusterError (detail : string)
| DeadlineExceeded
| Canceled
| errNoValue
| errFlagNotDynamic
| errorString (msg : string).

Definition nl : string := String "010" "".

(** [err.Error()] *)
Definition Error (e : error) : string :=
  match e with
  | EtcdError code message cause index =>
      pretty code ++ ": " ++ message ++ " (" ++ cause ++ ") [" ++ pretty index ++ "]"
  | ClusterError _ => "client: etcd cluster is unavailable or misconfigured"
  | DeadlineExceeded => "context deadline exceeded"
  | Canceled => "context canceled"
  | errNoValue => "no value in Node"
  | errFlagNotDynamic => "flag is not dynamic"
  | errorString msg => msg
  end.

(** A Go result pair [(T, error)] of which exactly one side is used. *)
Inductive result (A : Type) : Type :=
| Ok (a : A)
| Err (e : error).
Arguments Ok {A} a.
Arguments Err {A} e.

(** *** The collaborators, as interfaces *)

(** [pflag.Value]: [Set(string) error] on a value of state [V].  The
    state after the call is whatever the implementation leaves, also
    when it reports an error; the error is given by its message. *)
Class FlagValue (V : Type) : Type :=
  value_Set : string -> V -> V * option string.

(** [*pflag.Flag], with the annotation [flagz.IsFlagDynamic] reads. *)
Record Flag (V : Type) : Type := mkFlag {
  flagValue : V;
  IsFlagDynamic : bool
}.
Arguments mkFlag {V} _ _.
Arguments flagValue {V} _.
Arguments IsFlagDynamic {V} _.

(** [context.Context], reduced to whether [cancel] has been called. *)
Record Context : Type := mkContext { cancelled : bool }.

(** [etcd.KeysAPI] and [etcd.Watcher] over a store of state [S] and
    watchers of state [W].  The options are the ones the updater passes:
    [Get] is always recursive and sorted, [Set] and [Delete] always carry
    a [PrevIndex], [Watcher] is always recursive with an [AfterIndex].
    The responses of [Set] and [Delete] are dropped by the caller. *)
Class KeysAPI (S W : Type) : Type := mkKeysAPI {
  keys_Get : Context -> string -> S -> result Response * S;
  keys_Set : Context -> string -> string -> N -> S -> option error * S;
  keys_Delete : Context -> string -> N -> S -> option error * S;
  keys_Watcher : string -> N -> W;
  watcher_Next : Context -> W -> S -> result Response * W * S
}.

(** What the updater did to the outside, in order. *)
Inductive Call : Type :=
| CallGet (path : string)
| CallSet (key value : string) (prevIndex : N)
| CallDelete (key : string) (prevIndex : N)
| CallWatcher (path : string) (afterIndex : N)
| CallNext
| CallSleep (millis : N)
| CallSleepJitter (baseMillis spreadMillis : N).

Definition isRollback (c : Call) : bool :=
  match c with
  | CallSet _ _ _ | CallDelete _ _ => true
  | _ => false
  end.

(** One constructor for each [u.logger.Printf] of the source. *)
Inductive LogMsg : Type :=
| LogStopping
| LogIgnoring (err : error)
| LogWatcherStarted
| LogIndexError (err : error)
| LogClusterError (detail : string)
| LogDeadline
| LogWicked (err : error)
| LogIgnoringKey (err : error) (etcdindex : N)
| LogIgnoringAction (action flagName : string) (etcdindex : N)
| LogIgnoringUpdate (flagName : string) (etcdindex : N) (err : error)
| LogFailedUpdating (flagName : string) (etcdindex : N) (err : error)
| LogUpdated (flagName value : string) (etcdindex : N)
| LogWatcherExited
| LogRollbackChanged (flagName : string)
| LogRollbackFailed (flagName : string) (err : error)
| LogRolledBack (flagName : string).

(** A goroutine running [watchForUpdates]: launched and not yet
    scheduled, inside the [for] loop with its local [watcher], or
    returned. *)
Inductive Routine (W : Type) : Type :=
| Launched
| Looping (watcher : W)
| Returned.
Arguments Launched {W}.
Arguments Looping {W} watcher.
Arguments Returned {W}.

(** The [Updater] struct.  [etcdKeys] is the store behind the client
    handle; [logger] is the text written so far; [calls] and
    [goroutines] record the calls made and the goroutines launched. *)
Record Updater (V S W : Type) : Type := mkUpdater {
  etcdKeys : S;
  flagSet : gmap string (Flag V);
  logger : list LogMsg;
  etcdPath : string;
  lastIndex : N;
  watching : bool;
  context : Context;
  calls : list Call;
  goroutines : list (Routine W)
}.
Arguments mkUpdater {V S W} _ _ _ _ _ _ _ _ _.
Arguments etcdKeys {V S W} _.
Arguments flagSet {V S W} _.
Arguments logger {V S W} _.
Arguments etcdPath {V S W} _.
Arguments lastIndex {V S W} _.
Arguments watching {V S W} _.
Arguments context {V S W} _.
Arguments calls {V S W} _.
Arguments goroutines {V S W} _.

(** *** The operations of the updater *)

Section Operations.

Context {V S W : Type} `{!FlagValue V} `{!KeysAPI S W}.

#[local] Abbreviation Updater := (Updater V S W).

(** Field updates, one for each assignment and effect of the source. *)
Definition with_etcdKeys (st : S) (u : Updater) : Updater :=
  mkUpdater st (flagSet u) (logger u) (etcdPath u) (lastIndex u)
            (watching u) (context u) (calls u) (goroutines u).

Definition with_flagSet (fs : gmap string (Flag V)) (u : Updater) : Updater :=
  mkUpdater (etcdKeys u) fs (logger u) (etcdPath u) (lastIndex u)
            (watching u) (context u) (calls u) (goroutines u).

Definition Printf (m : LogMsg) (u : Updater) : Updater :=
  mkUpdater (etcdKeys u) (flagSet u) (logger u ++ [m]) (etcdPath u) (lastIndex u)
            (watching u) (context u) (calls u) (goroutines u).

Definition with_lastIndex (i : N) (u : Updater) : Updater :=
  mkUpdater (etcdKeys u) (flagSet u) (logger u) (etcdPath u) i
            (watching u) (context u) (calls u) (goroutines u).

Definition with_watching (b : bool) (u : Updater) : Updater :=
  mkUpdater (etcdKeys u) (flagSet u) (logger u) (etcdPath u) (lastIndex u)
            b (context u) (calls u) (goroutines u).

Definition with_context (c : Context) (u : Updater) : Updater :=
  mkUpdater (etcdKeys u) (flagSet u) (logger u) (etcdPath u) (lastIndex u)
            (watching u) c (calls u) (goroutines u).

Definition called (c : Call) (u : Updater) : Updater :=
  mkUpdater (etcdKeys u) (flagSet u) (logger u) (etcdPath u) (lastIndex u)
            (watching u) (context u) (calls u ++ [c]) (goroutines u).

Definition with_goroutines (g : list (Routine W)) (u : Updater) : Updater :=
  mkUpdater (etcdKeys u) (flagSet u) (logger u) (etcdPath u) (lastIndex u)
            (watching u) (context u) (calls u) g.

(** [time.Sleep]: only the fact of the pause is recorded. *)
Definition Sleep (millis : N) (u : Updater) : Updater :=
  called (CallSleep millis) u.

(** [New] *)
Definition New (set : gmap string (Flag V)) (keysApi : S) (etcdPath : string)
  : Updater :=
  let etcdPath :=
    if negb (HasSuffix etcdPath "/") then etcdPath ++ "/" else etcdPath in
  mkUpdater keysApi set [] etcdPath 0%N false (mkContext false) [] [].

(** [nodeToFlagName] *)
Definition nodeToFlagName (u : Updater) (node : Node) : result string :=
  if Dir node then
    Err (errorString ("key '" ++ Key node ++ "' is a directory entry"))
  else if negb (HasPrefix (Key node) (etcdPath u)) then
    Err (errorString ("key '" ++ Key node ++ "' doesn't start with etcd path '"
                      ++ etcdPath u ++ "'"))
  else
    let truncated := TrimPrefix (Key node) (etcdPath u) in
    if (0 <? Count truncated "/")%nat then
      Err (errorString ("key '" ++ Key node ++ "' isn't a direct leaf of etcd path '"
                        ++ etcdPath u ++ "'"))
    else Ok truncated.

(** [setFlag] *)
Definition setFlag (flagName value : string) (onlyDynamic : bool) (u : Updater)
  : Updater * option error :=
  if String.eqb value "" then (u, Some errNoValue)
  else
    match flagSet u !! flagName with
    | None => (u, Some (errorString ("flag=" ++ flagName ++ " was not found")))
    | Some flag =>
        if onlyDynamic && negb (IsFlagDynamic flag) then (u, Some errFlagNotDynamic)
        else
          let '(v, r) := value_Set value (flagValue flag) in
          (with_flagSet (<[flagName := mkFlag v (IsFlagDynamic flag)]> (flagSet u)) u,
           errorString <$> r)
    end.

(** The [for _, node := range resp.Node.Nodes] loop of [readAllFlags],
    with its accumulator [errorStrings]. *)
Fixpoint readNodes (onlyDynamic : bool) (nodes : list Node)
    (errorStrings : list string) (u : Updater) : Updater * list string :=
  match nodes with
  | [] => (u, errorStrings)
  | node :: rest =>
      match nodeToFlagName u node with
      | Err err => readNodes onlyDynamic rest errorStrings (Printf (LogIgnoring err) u)
      | Ok flagName =>
          let '(u', r) := setFlag flagName (Value node) onlyDynamic u in
          match r with
          | None | Some errNoValue => readNodes onlyDynamic rest errorStrings u'
          | Some err => readNodes onlyDynamic rest (errorStrings ++ [Error err]) u'
          end
      end
  end.

(** The aggregate error of [readAllFlags]. *)
Definition errEncountered (errorStrings : list string) : error :=
  errorString ("flagz: encountered " ++ pretty (length errorStrings)
               ++ " errors while parsing flags from etcd: " ++ nl ++ "  "
               ++ Join errorStrings nl).

(** [readAllFlags] *)
Definition readAllFlags (onlyDynamic : bool) (u : Updater) : Updater * option error :=
  let '(r, st) := keys_Get (context u) (etcdPath u) (etcdKeys u) in
  let u := with_etcdKeys st (called (CallGet (etcdPath u)) u) in
  match r with
  | Err err => (u, Some err)
  | Ok resp =>
      let u := with_lastIndex (Index resp) u in
      let '(u, errorStrings) := readNodes onlyDynamic (Nodes (RNode resp)) [] u in
      if (0 <? length errorStrings)%nat
      then (u, Some (errEncountered errorStrings))
      else (u, None)
  end.

Definition errAlreadyInitialized : error := errorString "flagz: already initialized.".
Definition errNotInitialized : error := errorString "flagz: not initialized".
Definition errAlreadyWatching : error := errorString "flagz: already watching".
Definition errNotWatching : error := errorString "flagz: not watching".

(** [Initialize] *)
Definition Initialize (u : Updater) : Updater * option error :=
  if negb (lastIndex u =? 0)%N then (u, Some errAlreadyInitialized)
  else readAllFlags false u.

(** [Start]; [go u.watchForUpdates()] adds a goroutine. *)
Definition Start (u : Updater) : Updater * option error :=
  if (lastIndex u =? 0)%N then (u, Some errNotInitialized)
  else if watching u then (u, Some errAlreadyWatching)
  else
    let u := with_watching true u in
    (with_goroutines (goroutines u ++ [Launched]) u, None).

(** [Stop]; [u.cancel()] cancels the context. *)
Definition Stop (u : Updater) : Updater * option error :=
  if negb (watching u) then (u, Some errNotWatching)
  else (with_context (mkContext true) (Printf LogStopping u), None).

(** [rollbackEtcdValue] *)
Definition rollbackEtcdValue (flagName : string) (resp : Response) (u : Updater)
  : Updater :=
  let '(err, u) :=
    match PrevNode resp with
    | Some prev =>
        let '(err, st) :=
          keys_Set (context u) (Key (RNode resp)) (Value prev) (lastIndex u)
                   (etcdKeys u) in
        (err, with_etcdKeys st
                (called (CallSet (Key (RNode resp)) (Value prev) (lastIndex u)) u))
    | None =>
        let '(err, st) :=
          keys_Delete (context u) (Key (RNode resp)) (lastIndex u) (etcdKeys u) in
        (err, with_etcdKeys st
                (called (CallDelete (Key (RNode resp)) (lastIndex u)) u))
    end in
  match err with
  | Some (EtcdError code _ _ _ as e) =>
      if (code =? ErrorCodeTestFailed)%Z
      then Printf (LogRollbackChanged flagName) u
      else Printf (LogRollbackFailed flagName e) u
  | Some e => Printf (LogRollbackFailed flagName e) u
  | None => Printf (LogRolledBack flagName) u
  end.

(** How one pass through the body of the [for u.watching] loop ends:
    [continue] (or falling off the end of the body) with the watcher to
    use next, or leaving the loop. *)
Inductive Loop : Type :=
| Continue (watcher : W)
| Break.

(** The last [else if err != nil] branch of the error classification. *)
Definition wickedError (err : error) (watcher : W) (u : Updater) : Updater * Loop :=
  (called (CallSleepJitter 1000 500) (Printf (LogWicked err) u), Continue watcher).

(** One pass of the loop of [watchForUpdates], from the test of
    [u.watching] on. *)
Definition watchIteration (watcher : W) (u : Updater) : Updater * Loop :=
  if negb (watching u) then (u, Break)
  else
    let '(r, watcher, st) := watcher_Next (context u) watcher (etcdKeys u) in
    let u := with_etcdKeys st (called CallNext u) in
    match r with
    | Err err =>
        match err with
        | EtcdError code _ _ _ =>
            if (code =? ErrorCodeEventIndexCleared)%Z then
              let u := Sleep 200 (Printf (LogIndexError err) u) in
              let '(u, _) := readAllFlags true u in
              (called (CallWatcher (etcdPath u) (lastIndex u)) u,
               Continue (keys_Watcher (etcdPath u) (lastIndex u)))
            else wickedError err watcher u
        | ClusterError detail =>
            (Sleep 100 (Printf (LogClusterError detail) u), Continue watcher)
        | DeadlineExceeded => (Printf LogDeadline u, Continue watcher)
        | Canceled => (u, Break)
        | _ => wickedError err watcher u
        end
    | Ok resp =>
        let u := with_lastIndex (ModifiedIndex (RNode resp)) u in
        match nodeToFlagName u (RNode resp) with
        | Err err => (Printf (LogIgnoringKey err (lastIndex u)) u, Continue watcher)
        | Ok flagName =>
            let '(u, err) := setFlag flagName (Value (RNode resp)) true u in
            match err with
            | Some errNoValue =>
                (Printf (LogIgnoringAction (Action resp) flagName (lastIndex u)) u,
                 Continue watcher)
            | Some errFlagNotDynamic =>
                (Printf (LogIgnoringUpdate flagName (lastIndex u) errFlagNotDynamic) u,
                 Continue watcher)
            | Some err =>
                (rollbackEtcdValue flagName resp
                   (Printf (LogFailedUpdating flagName (lastIndex u) err) u),
                 Continue watcher)
            | None =>
                (Printf (LogUpdated flagName (Value (RNode resp)) (lastIndex u)) u,
                 Continue watcher)
            end
        end
    end.

(** The statements of [watchForUpdates] before the loop. *)
Definition watchEnter (u : Updater) : Updater * W :=
  (Printf LogWatcherStarted (called (CallWatcher (etcdPath u) (lastIndex u)) u),
   keys_Watcher (etcdPath u) (lastIndex u)).

(** The statements after the loop. *)
Definition watchLeave (u : Updater) : Updater := Printf LogWatcherExited u.

(** The loop, for at most [passes] passes; [true] when it was left. *)
Fixpoint watchLoop (passes : nat) (watcher : W) (u : Updater) : Updater * bool :=
  match passes with
  | O => (u, false)
  | Datatypes.S k =>
      match watchIteration watcher u with
      | (u, Break) => (u, true)
      | (u, Continue watcher) => watchLoop k watcher u
      end
  end.

(** [watchForUpdates] run on its own: [Some None] is [return nil],
    [None] that the loop is still running after [passes] passes. *)
Definition watchForUpdates (passes : nat) (u : Updater)
  : Updater * option (option error) :=
  let '(u, watcher) := watchEnter u in
  match watchLoop passes watcher u with
  | (u, true) => (watchLeave u, Some None)
  | (u, false) => (u, None)
  end.

(** *** The updater with its goroutines

    The caller's [Initialize], [Start] and [Stop] and the passes of the
    launched goroutines, interleaved in any order.  A call of the caller
    and a pass of the loop are each one step: the source takes no lock,
    and the specification leaves it to the caller to serialize the
    lifecycle calls. *)

(** Let goroutine [i] run up to its next pass. *)
Definition schedule (i : nat) (u : Updater) : Updater :=
  match goroutines u !! i with
  | Some Launched =>
      let '(u, watcher) := watchEnter u in
      with_goroutines (<[i := Looping watcher]> (goroutines u)) u
  | Some (Looping watcher) =>
      match watchIteration watcher u with
      | (u, Continue watcher) =>
          with_goroutines (<[i := Looping watcher]> (goroutines u)) u
      | (u, Break) =>
          let u := watchLeave u in
          with_goroutines (<[i := Returned]> (goroutines u)) u
      end
  | Some Returned | None => u
  end.

Inductive Op : Type :=
| OpInitialize
| OpStart
| OpStop
| OpSchedule (i : nat).

Definition perform (o : Op) (u : Updater) : Updater * option error :=
  match o with
  | OpInitialize => Initialize u
  | OpStart => Start u
  | OpStop => Stop u
  | OpSchedule i => (schedule i u, None)
  end.

Definition performAll (ops : list Op) (u : Updater) : Updater :=
  foldl (fun u o => fst (perform o u)) u ops.

End Operations.

End Etcd.

(** ** A small instance to run the updater on

    An integer flag that accepts decimal digits only, and a store that
    plays back a script: one snapshot, a queue of watch results, and one
    answer to every conditioned write or delete. *)

Module Fixture.
Import Etcd.

Definition isDigit (c : ascii) : bool :=
  ((48 <=? N_of_ascii c) && (N_of_ascii c <=? 57))%N.

Fixpoint allDigits (s : string) : bool :=
  match s with
  | EmptyString => true
  | String c t => isDigit c && allDigits t
  end.

(** The flag keeps the accepted text; a rejected text leaves it as it was. *)
#[export] Instance intFlag : FlagValue string :=
  fun input old =>
    if allDigits input then (input, None)
    else (old, Some ("strconv.ParseInt: parsing " ++ input ++ ": invalid syntax")).

Record Script : Type := mkScript {
  snapshot : result Response;
  events : list (result Response);
  rollbackAnswer : option error
}.

#[export] Instance scripted : KeysAPI Script N := {|
  keys_Get := fun _ _ st => (snapshot st, st);
  keys_Set := fun _ _ _ _ st => (rollbackAnswer st, st);
  keys_Delete := fun _ _ _ st => (rollbackAnswer st, st);
  keys_Watcher := fun _ afterIndex => afterIndex;
  watcher_Next := fun ctx w st =>
    match events st with
    | [] => (Err (if cancelled ctx then Canceled else DeadlineExceeded), w, st)
    | r :: rest =>
        (r, match r with Ok resp => (ModifiedIndex (RNode resp) + 1)%N | Err _ => w end,
         mkScript (snapshot st) rest (rollbackAnswer st))
    end
|}.

Definition leaf (key value : string) (index : N) : Node :=
  mkNode key value false index [].

Definition dir (key : string) (index : N) (nodes : list Node) : Node :=
  mkNode key "" true index nodes.

Definition flags : gmap string (Flag string) :=
  <["a" := mkFlag "1" true]> (<["static" := mkFlag "7" false]> ∅).

(** The scenario of the specification: [/config/a = 5] and an
    unregistered [/config/unknown = 1]. *)
Definition snapshotUnknown : Response :=
  mkResponse "get"
    (dir "/config" 3 [leaf "/config/a" "5" 4; leaf "/config/unknown" "1" 5]) None 5.

(** [a: 5 -> bogus], with the previous value in the event. *)
Definition eventBogus : Response :=
  mkResponse "set" (leaf "/config/a" "bogus" 9) (Some (leaf "/config/a" "5" 4)) 9.

Definition eventUnknown : Response :=
  mkResponse "set" (leaf "/config/nosuchflag" "1" 10) None 10.

Definition eventNested : Response :=
  mkResponse "set" (leaf "/config/a/b" "5" 11) None 11.

Definition eventZero : Response :=
  mkResponse "set" (leaf "/config/a" "6" 0) None 0.

Definition errCompacted : error :=
  EtcdError ErrorCodeEventIndexCleared
            "The event in requested index is outdated and cleared" "" 20.

(** A fresh updater on [/config] over a store that has the snapshot
above and will deliver [evs]. *)
Definition fresh (evs : list (result Response)) : Updater string Script N :=
  New flags (mkScript (Ok snapshotUnknown) evs None) "/config".

(** The same after [Initialize] and [Start]. *)
Definition watchingOn (evs : list (result Response)) : Updater string Script N :=
  fst (Start (fst (Initialize (fresh evs)))).

(** An updater whose store cannot be reached. *)
Definition unreachable : Updater string Script N :=
  New flags (mkScript (Err (ClusterError "connection refused")) [] None) "/config".

(** A store without state: the same snapshot at every read, the same
change at every [Next] until the context is cancelled. *)
#[export] Instance steady : KeysAPI unit unit := {|
  keys_Get := fun _ _ st => (Ok snapshotUnknown, st);
  keys_Set := fun _ _ _ _ st => (None, st);
  keys_Delete := fun _ _ _ st => (None, st);
  keys_Watcher := fun _ _ => tt;
  watcher_Next := fun ctx w st =>
    (if cancelled ctx then Err Canceled else Ok eventBogus, w, st)
|}.

Definition freshSteady : Updater string unit unit := New flags tt "/config".

End Fixture.

(** ** Package [protoflagz]: the dynamic proto3 value *)

Module Protoflagz.

(** An [error], given by its message. *)
Definition error : Type := string.

(** [jsonpb.Marshaler], with the two fields the code sets. *)
Record Marshaler : Type := mkMarshaler {
  Indent : string;
  OrigName : bool
}.

(** What the code needs of the struct type [T] behind a [proto.Message]:
    the zero struct that [reflect.New] allocates and the three codec
    functions of the protobuf library.  The two parsers fill the struct
    they are given and may leave it partly filled when they fail. *)
Class Proto3 (T : Type) : Type := mkProto3 {
  zeroStruct : T;
  jsonpb_UnmarshalString : string -> T -> T * option error;
  proto_Unmarshal : string -> T -> T * option error;
  jsonpb_MarshalToString : Marshaler -> T -> string + error
}.

(** [DynProto3Value].  A [proto.Message] is a pointer to a struct: the
    structs allocated so far are [heap], addressed by position, and
    [ptr] is the address of the current one.  [Nf] names the notifier
    functions; [notified] lists the goroutines launched with
    [go d.notifier(old, new)]. *)
Record DynProto3Value (T Nf : Type) : Type := mkDyn {
  heap : list T;
  ptr : nat;
  validator : option (T -> option error);
  notifier : option Nf;
  notified : list (Nf * nat * nat)
}.
Arguments mkDyn {T Nf} _ _ _ _ _.
Arguments heap {T Nf} _.
Arguments ptr {T Nf} _.
Arguments validator {T Nf} _.
Arguments notifier {T Nf} _.
Arguments notified {T Nf} _.

Section DynProto3.

Context {T Nf : Type} `{!Proto3 T}.

#[local] Abbreviation DynProto3Value := (DynProto3Value T Nf).

(** The struct behind a message. *)
Definition load (d : DynProto3Value) (p : nat) : T :=
  default zeroStruct (heap d !! p).

(** [reflect.New(d.structType)]: a fresh zero struct and its address. *)
Definition new (d : DynProto3Value) : nat * DynProto3Value :=
  (length (heap d),
   mkDyn (heap d ++ [zeroStruct]) (ptr d) (validator d) (notifier d) (notified d)).

(** Writing through a pointer. *)
Definition store (p : nat) (m : T) (d : DynProto3Value) : DynProto3Value :=
  mkDyn (<[p := m]> (heap d)) (ptr d) (validator d) (notifier d) (notified d).

(** [atomic.SwapPointer(&d.ptr, p)] *)
Definition SwapPointer (p : nat) (d : DynProto3Value) : nat * DynProto3Value :=
  (ptr d, mkDyn (heap d) p (validator d) (notifier d) (notified d)).

(** [go f(old, new)] *)
Definition go (f : Nf) (old new : nat) (d : DynProto3Value) : DynProto3Value :=
  mkDyn (heap d) (ptr d) (validator d) (notifier d) (notified d ++ [(f, old, new)]).

(** [DynProto3], without the registration in the flag set: the value
    starts at the struct the caller passes. *)
Definition DynProto3 (value : T) : DynProto3Value :=
  mkDyn [value] 0 None None [].

(** [Get]: the current message. *)
Definition Get (d : DynProto3Value) : nat := ptr d.

(** The test of [Set] on its input. *)
Definition looksLikeJSON (input : string) : bool :=
  HasPrefix (TrimSpace input) "{" && HasSuffix (TrimSpace input) "}".

(** [Set] *)
Definition Set_ (input : string) (d : DynProto3Value)
  : DynProto3Value * option error :=
  let '(someStruct, d) := new d in
  let '(m, err) :=
    if looksLikeJSON input
    then jsonpb_UnmarshalString input (load d someStruct)
    else proto_Unmarshal input (load d someStruct) in
  let d := store someStruct m d in
  match err with
  | Some err => (d, Some err)
  | None =>
      match
        match validator d with
        | Some check => check (load d someStruct)
        | None => None
        end
      with
      | Some err => (d, Some err)
      | None =>
          let '(oldPtr, d) := SwapPointer someStruct d in
          match notifier d with
          | Some f => (go f oldPtr someStruct d, None)
          | None => (d, None)
          end
      end
  end.

(** [WithValidator] *)
Definition WithValidator (check : T -> option error) (d : DynProto3Value)
  : DynProto3Value :=
  mkDyn (heap d) (ptr d) (Some check) (notifier d) (notified d).

(** [WithNotifier] *)
Definition WithNotifier (f : Nf) (d : DynProto3Value) : DynProto3Value :=
  mkDyn (heap d) (ptr d) (validator d) (Some f) (notified d).

(** [Type] *)
Definition Type_ (d : DynProto3Value) : string := "dyn_proto3_json".

(** [PrettyString] *)
Definition PrettyString (d : DynProto3Value) : string :=
  match jsonpb_MarshalToString (mkMarshaler "  " true) (load d (Get d)) with
  | inr _ => "ERR"
  | inl out => out
  end.

(** [String] *)
Definition String_ (d : DynProto3Value) : string :=
  match jsonpb_MarshalToString (mkMarshaler "" true) (load d (Get d)) with
  | inr _ => "ERR"
  | inl out => out
  end.

End DynProto3.

End Protoflagz.

(** ** A small message type to run the dynamic value on

    A message with the single field [bool enabled = 1]. *)

Module Toggle.
Import Protoflagz.

Definition q : string := String "034" "".

Definition jsonTrue : string := "{" ++ q ++ "enabled" ++ q ++ ":true}".
Definition jsonFalse : string := "{" ++ q ++ "enabled" ++ q ++ ":false}".
Definition wireTrue : string := String "008" (String "001" "").
Definition wireFalse : string := String "008" (String "000" "").

#[export] Instance toggle : Proto3 bool := {|
  zeroStruct := false;
  jsonpb_UnmarshalString := fun input m =>
    let text := TrimSpace input in
    if String.eqb text "{}" then (m, None)
    else if String.eqb text jsonTrue then (true, None)
    else if String.eqb text jsonFalse then (false, None)
    else (m, Some "invalid character looking for beginning of value");
  proto_Unmarshal := fun input m =>
    if String.eqb input "" then (m, None)
    else if String.eqb input wireTrue then (true, None)
    else if String.eqb input wireFalse then (false, None)
    else (m, Some "proto: illegal wireType");
  jsonpb_MarshalToString := fun _ m => inl (if m then jsonTrue else "{}")
|}.

(** A validator that wants the switch on. *)
Definition mustBeEnabled (m : bool) : option error :=
  if m then None else Some "must be enabled".

End Toggle.

(** ** Vocabulary for the statements about the updater *)

Module UpdaterSpec.
Import Etcd.

Section Vocabulary.

Context {V S W : Type} `{!FlagValue V} `{!KeysAPI S W}.

(** The rollback that a rejected change calls for: the previous value
written back, or the key deleted when the event has no previous node,
each conditioned on the modified index of the change. *)
Definition rollbackCall (resp : Response) : Call :=
  match PrevNode resp with
  | Some prev => CallSet (Key (RNode resp)) (Value prev) (ModifiedIndex (RNode resp))
  | None => CallDelete (Key (RNode resp)) (ModifiedIndex (RNode resp))
  end.

(** What the store answers to that rollback. *)
Definition rollbackAnswer (ctx : Context) (resp : Response) (st : S) : option error * S :=
  match PrevNode resp with
  | Some prev =>
      keys_Set ctx (Key (RNode resp)) (Value prev) (ModifiedIndex (RNode resp)) st
  | None => keys_Delete ctx (Key (RNode resp)) (ModifiedIndex (RNode resp)) st
  end.

(** The answer is the store's condition mismatch. *)
Definition isTestFailed (e : error) : Prop :=
  exists message cause index, e = EtcdError ErrorCodeTestFailed message cause index.

(** The line logged for an answer: a condition mismatch and a success
are both reported as good, any other error as a failure. *)
Inductive rollbackLogged (flagName : string) : option error -> LogMsg -> Prop :=
| logged_conflict (e : error) :
    isTestFailed e -> rollbackLogged flagName (Some e) (LogRollbackChanged flagName)
| logged_failure (e : error) :
    ~ isTestFailed e -> rollbackLogged flagName (Some e) (LogRollbackFailed flagName e)
| logged_success : rollbackLogged flagName None (LogRolledBack flagName).

(** The updater after the watcher handed over [resp]: the call is
recorded, the store has moved on, and the cursor is at the change. *)
Definition received (resp : Response) (st : S) (u : Updater V S W) : Updater V S W :=
  with_lastIndex (ModifiedIndex (RNode resp)) (with_etcdKeys st (called CallNext u)).

(** A key that is no flag: a directory, a key outside the prefix, or a
key with a further separator below the prefix. *)
Definition notALeaf (path : string) (node : Node) : Prop :=
  Dir node = true
  \/ HasPrefix (Key node) path = false
  \/ exists segment rest, Key node = path ++ segment ++ "/" ++ rest.

(** The store never hands out the index [0], which the updater keeps
for "nothing read yet". *)
Definition indexesFromOne : Prop :=
  (forall ctx path st resp st',
      keys_Get ctx path st = (Ok resp, st') -> Index resp <> 0%N)
  /\ (forall ctx w st resp w' st',
      watcher_Next ctx w st = (Ok resp, w', st') -> ModifiedIndex (RNode resp) <> 0%N).

(** The index that a read of the listing reports to the updater, if the
read returns a response. *)
Definition reportedByGet (st : S) (u : Updater V S W) : option N :=
  match keys_Get (context u) (etcdPath u) st with
  | (Ok resp, _) => Some (Index resp)
  | (Err _, _) => None
  end.

(** The index that the store reports to one pass of the loop: the index
of the change that [Next] hands over, or the index of the listing read
after the compacted-index error. *)
Definition reportedToLoop (watcher : W) (u : Updater V S W) : option N :=
  if negb (watching u) then None
  else
    match watcher_Next (context u) watcher (etcdKeys u) with
    | (Ok resp, _, _) => Some (ModifiedIndex (RNode resp))
    | (Err (EtcdError code _ _ _), _, st) =>
        if (code =? ErrorCodeEventIndexCleared)%Z then reportedByGet st u else None
    | (Err _, _, _) => None
    end.

(** The index that the store reports to the updater in one operation,
if it reports one. *)
Definition reported (o : Op) (u : Updater V S W) : option N :=
  match o with
  | OpInitialize =>
      if (lastIndex u =? 0)%N then reportedByGet (etcdKeys u) u else None
  | OpSchedule i =>
      match goroutines u !! i with
      | Some (Looping watcher) => reportedToLoop watcher u
      | _ => None
      end
  | OpStart | OpStop => None
  end.

(** Along the run of [ops] from [u], the store reports no index [0]. *)
Fixpoint noZeroReported (ops : list Op) (u : Updater V S W) : bool :=
  match ops with
  | [] => true
  | o :: rest =>
      match reported o u with
      | Some index => negb (index =? 0)%N
      | None => true
      end && noZeroReported rest (fst (perform o u))
  end.

(** The updater and the error strings collected when the pass over a
snapshot reaches entry [i]. *)
Definition before (onlyDynamic : bool) (nodes : list Node) (i : nat)
    (u : Updater V S W) : Updater V S W * list string :=
  readNodes onlyDynamic (take i nodes) [] u.

(** Entry [i] of a pass is ignored: the registry, the collected errors,
the calls to the store and the cursor are after it what they were before
it, and the log has one more line, saying that the key is ignored. *)
Definition ignoredAt (onlyDynamic : bool) (nodes : list Node) (i : nat)
    (u : Updater V S W) : Prop :=
  let atEntry := before onlyDynamic nodes i u in
  let afterEntry := before onlyDynamic nodes (Datatypes.S i) u in
  flagSet (fst afterEntry) = flagSet (fst atEntry)
  /\ snd afterEntry = snd atEntry
  /\ calls (fst afterEntry) = calls (fst atEntry)
  /\ lastIndex (fst afterEntry) = lastIndex (fst atEntry)
  /\ exists err, logger (fst afterEntry)
                 = (logger (fst atEntry) ++ [LogIgnoring err])%list.

(** The message that one entry adds to the aggregate error, if any: an
entry fails when its key names a flag and [setFlag] reports an error
other than the missing value. *)
Definition failureOf (onlyDynamic : bool) (node : Node) (u : Updater V S W)
  : option string :=
  match nodeToFlagName u node with
  | Err _ => None
  | Ok flagName =>
      match snd (setFlag flagName (Value node) onlyDynamic u) with
      | None | Some errNoValue => None
      | Some err => Some (Error err)
      end
  end.

(** The failures of all entries, each taken on the updater as the
entries before it left it. *)
Definition failures (onlyDynamic : bool) (nodes : list Node) (u : Updater V S W)
  : list string :=
  omap (fun i => nodes !! i ≫= fun node =>
                 failureOf onlyDynamic node (fst (before onlyDynamic nodes i u)))
       (seq 0 (length nodes)).

(** The fields that neither [setFlag] nor the pass over a snapshot
touches. *)
Definition frame (u u' : Updater V S W) : Prop :=
  etcdKeys u' = etcdKeys u /\ etcdPath u' = etcdPath u /\ lastIndex u' = lastIndex u
  /\ watching u' = watching u /\ context u' = context u /\ calls u' = calls u
  /\ goroutines u' = goroutines u.

(** A snapshot entry without the nodes below it. *)
Definition shallow (node : Node) : Node :=
  mkNode (Key node) (Value node) (Dir node) (ModifiedIndex node) [].

End Vocabulary.

End UpdaterSpec.

(** ** Vocabulary for the statements about the dynamic value *)

Module DynProto3Spec.
Import Protoflagz.

Section Vocabulary.

Context {T Nf : Type} `{!Proto3 T}.

(** The current pointer is an address of the heap. *)
Definition valid (d : DynProto3Value T Nf) : Prop := ptr d < length (heap d).

(** A text that starts with an opening and ends with a closing brace. *)
Definition bracketed (text : string) : Prop :=
  (exists rest, text = "{" ++ rest) /\ (exists front, text = front ++ "}").

(** The contract of the protobuf library that a round trip rests on:
the compact JSON form of a message is an object in braces, and parsing
it into a zero struct gives a message [Equal] to the one serialized
([proto.Equal]). *)
Definition roundTrips (Equal : T -> T -> Prop) : Prop :=
  forall m out,
    jsonpb_MarshalToString (mkMarshaler "" true) m = inl out ->
    looksLikeJSON out = true
    /\ exists m', jsonpb_UnmarshalString out zeroStruct = (m', None) /\ Equal m' m.

(** The validator, when there is one, accepts [m] in every [Equal]
form. *)
Definition accepts (Equal : T -> T -> Prop) (d : DynProto3Value T Nf) (m : T) : Prop :=
  forall check m', validator d = Some check -> Equal m' m -> check m' = None.

End Vocabulary.

End DynProto3Spec.

(** ** Further vocabulary: the rest of the updater's behaviour *)

Module UpdaterTerms.
Import Etcd UpdaterSpec.

Section Terms.

Context {V S W : Type} `{!FlagValue V} `{!KeysAPI S W}.

(** A name with no path separator in it. *)
Definition noSeparator (name : string) : Prop :=
  forall a b, name <> a ++ "/" ++ b.

(** [part] occurs in [text]. *)
Definition mentions (text part : string) : Prop :=
  exists a b, text = a ++ part ++ b.

(** The error of [Next] that sends the loop into the re-read. *)
Definition isCompacted (e : error) : Prop :=
  exists message cause index,
    e = EtcdError ErrorCodeEventIndexCleared message cause index.

(** The pause the loop takes after an error of [Next] that is not the
compacted index. *)
Definition backoff (e : error) : list Call :=
  match e with
  | ClusterError _ => [CallSleep 100]
  | DeadlineExceeded | Canceled => []
  | _ => [CallSleepJitter 1000 500]
  end.

(** A store whose [Next] returns [context.Canceled] once the context is
cancelled. *)
Definition honoursCancel : Prop :=
  forall (w : W) (st : S),
    exists w' st', watcher_Next (mkContext true) w st = (Err Canceled, w', st').

(** Which flags are registered, and which of them are dynamic. *)
Definition markers (u : Updater V S W) : gmap string bool :=
  IsFlagDynamic <$> flagSet u.

End Terms.

End UpdaterTerms.

(** ** Further events and states for the scripted store *)

Module FixtureMore.
Import Etcd Fixture.

(** [a: 5 -> 6], which the integer flag accepts. *)
Definition eventGood : Response :=
  mkResponse "set" (leaf "/config/a" "6" 12) (Some (leaf "/config/a" "5" 4)) 12.

(** A change of the flag that is not dynamic. *)
Definition eventStatic : Response :=
  mkResponse "set" (leaf "/config/static" "8" 13) None 13.

(** An updater in its loop whose store has compacted its history and
cannot be read. *)
Definition compactedAndDown : Updater string Script N :=
  mkUpdater (mkScript (Err (ClusterError "connection refused")) [Err errCompacted] None)
            flags [] "/config/" 5 true (mkContext false) [] [Looping 5%N].

(** What the store holds after its history was compacted: new values
for the dynamic flag [a] and for the static flag, at index 20. *)
Definition snapshotFresh : Response :=
  mkResponse "get"
    (dir "/config" 3 [dir "/config/sub" 17 [leaf "/config/sub/a" "3" 17];
                      leaf "/config/a" "6" 18;
                      leaf "/config/static" "9" 19]) None 20.

(** An updater in its loop, at cursor 5, whose store has compacted its
history and holds [snapshotFresh]. *)
Definition recovering : Updater string Script N :=
  mkUpdater (mkScript (Ok snapshotFresh) [Err errCompacted] None)
            flags [] "/config/" 5 true (mkContext false) [] [Looping 5%N].

(** The updater on the steady store, in its loop. *)
Definition loopingSteady : Updater string unit unit :=
  schedule 0 (fst (Start (fst (Initialize freshSteady)))).

End FixtureMore.

(** ** Further vocabulary: the life of a dynamic value *)

Module DynProto3Terms.
Import Protoflagz.

Section Terms.

Context {T Nf : Type} `{!Proto3 T}.

(** What the parser that [Set] chooses for [input] makes of a zero
struct. *)
Definition chosenParser (input : string) : T * option error :=
  if looksLikeJSON input
  then jsonpb_UnmarshalString input zeroStruct
  else proto_Unmarshal input zeroStruct.

(** The calls a program makes on a dynamic value. *)
Inductive Step : Type :=
| StepSet (input : string)
| StepWithValidator (check : T -> option error)
| StepWithNotifier (f : Nf).

Definition step (a : Step) (d : DynProto3Value T Nf) : DynProto3Value T Nf :=
  match a with
  | StepSet input => fst (Set_ input d)
  | StepWithValidator check => WithValidator check d
  | StepWithNotifier f => WithNotifier f d
  end.

Definition run (steps : list Step) (d : DynProto3Value T Nf) : DynProto3Value T Nf :=
  foldl (fun d a => step a d) d steps.

Definition isSet (a : Step) : bool :=
  match a with StepSet _ => true | _ => false end.

(** The number of calls of [Set] among [steps]. *)
Definition setsIn (steps : list Step) : nat :=
  length (List.filter isSet steps).

End Terms.

End DynProto3Terms.

(** ** The dynamic value as a flag of the registry *)

Module DynFlag.
Import Etcd Protoflagz.

Section DynFlag.

Context {T Nf : Type} `{!Proto3 T}.

(** [*DynProto3Value] implements [pflag.Value]: the [Set] that the
updater calls on the flag is the [Set] of the dynamic value. *)
#[export] Instance dynValue : FlagValue (DynProto3Value T Nf) :=
  fun input d => Set_ input d.

(** Modelled from the spec: [flagz.MarkFlagDynamic], a function of the
repository's root package that is not among the sources.  It sets, on
the flag, the marker that [flagz.IsFlagDynamic] reads. *)
Definition MarkFlagDynamic {V : Type} (flag : Flag V) : Flag V :=
  mkFlag (flagValue flag) true.

(** [flagSet.VarPF(value, name, "", usage)] of pflag: the new flag is
added under [name], unmarked, and returned.  [None] is pflag's panic on
a name that is already defined. *)
Definition VarPF {V : Type} (flagSet : gmap string (Flag V)) (value : V) (name : string)
  : option (gmap string (Flag V) * Flag V) :=
  match flagSet !! name with
  | Some _ => None
  | None => Some (<[name := mkFlag value false]> flagSet, mkFlag value false)
  end.

(** [DynProto3] with its registration.  The flag that [VarPF] returns is
the one the registry holds, so marking it marks it there. *)
Definition DynProto3In (flagSet : gmap string (Flag (DynProto3Value T Nf)))
    (name : string) (value : T)
  : option (gmap string (Flag (DynProto3Value T Nf)) * DynProto3Value T Nf) :=
  let dynValue := DynProto3 value in
  match VarPF flagSet dynValue name with
  | None => None
  | Some (flagSet, flag) =>
      Some (<[name := MarkFlagDynamic flag]> flagSet, dynValue)
  end.

End DynFlag.

End DynFlag.

(** ** A toggle flag under the scripted store *)

Module DynFixture.
Import Etcd Fixture Protoflagz Toggle DynFlag.

Definition toggleFlags : gmap string (Flag (DynProto3Value bool unit)) :=
  <["toggle" := mkFlag (DynProto3 false) true]> ∅.

Definition eventToggle (text : string) : Response :=
  mkResponse "set" (leaf "/config/toggle" text 7) None 7.

(** An updater in its loop that is about to receive [text] for the
toggle. *)
Definition watchingToggle (text : string)
  : Updater (DynProto3Value bool unit) Script N :=
  mkUpdater (mkScript (Ok snapshotUnknown) [Ok (eventToggle text)] None)
            toggleFlags [] "/config/" 5 true (mkContext false) [] [Looping 5%N].

End DynFixture.

(** * Properties *)

(** ** The model at work *)

Module FixtureRuns.
Import Etcd Fixture.

Example New_normalizes : etcdPath (fresh []) = "/config/".
Proof. reflexivity. Qed.

Example Initialize_unknown_applies_a :
  flagSet (fst (Initialize (fresh []))) !! "a" = Some (mkFlag "5" true)
  /\ lastIndex (fst (Initialize (fresh []))) = 5%N.
Proof. vm_compute. split; reflexivity. Qed.

Example bogus_is_rolled_back :
  calls (fst (watchIteration 5%N (watchingOn [Ok eventBogus])))
  = [CallGet "/config/"; CallNext; CallSet "/config/a" "5" 9].
Proof. vm_compute. reflexivity. Qed.

(** The snapshot [a = 5, static = ""]: the empty value is passed over
and there is no error. *)
Example Initialize_skips_empty_value :
  Initialize (New flags
                (mkScript (Ok (mkResponse "get"
                                 (dir "/config" 3 [leaf "/config/a" "5" 4;
                                                   leaf "/config/static" "" 5])
                                 None 5)) [] None) "/config/")
  = (mkUpdater (mkScript (Ok (mkResponse "get"
                                 (dir "/config" 3 [leaf "/config/a" "5" 4;
                                                   leaf "/config/static" "" 5])
                                 None 5)) [] None)
               (<["a" := mkFlag "5" true]> flags) [] "/config/" 5 false
               (mkContext false) [CallGet "/config/"] [],
     None).
Proof. vm_compute. reflexivity. Qed.

(** [Stop] lets the loop return at its next [Next]. *)
Example Stop_ends_the_loop :
  snd (watchForUpdates 3 (fst (Stop (watchingOn [])))) = Some None
  /\ snd (watchForUpdates 3 (watchingOn [])) = None.
Proof. vm_compute. split; reflexivity. Qed.

End FixtureRuns.

(** ** Go's string functions *)

Module StringFacts.

(** [String.append] is never unfolded by [simpl]; its two equations. *)
Lemma app_nil_l (b : string) : "" ++ b = b.
Proof. reflexivity. Qed.

Lemma app_cons (x : ascii) (a b : string) : String x a ++ b = String x (a ++ b).
Proof. reflexivity. Qed.

Lemma prefix_refl_app (p x : string) : String.prefix p (p ++ x) = true.
Proof.
  induction p as [|c p IH].
  - rewrite app_nil_l. by destruct x.
  - rewrite app_cons. simpl. destruct (ascii_dec c c); [exact IH | congruence].
Qed.

Lemma prefix_inv (p s : string) :
  String.prefix p s = true -> exists x, s = p ++ x.
Proof.
  revert s; induction p as [|c p IH]; intros s H.
  - by exists s.
  - destruct s as [|c' s]; simpl in H; [discriminate|].
    destruct (ascii_dec c c') as [->|]; [|discriminate].
    destruct (IH s H) as [x ->]. by exists x.
Qed.

Lemma skip_len_app (p x : string) : skip (len p) (p ++ x) = x.
Proof.
  induction p as [|c p IH]; [by destruct x|].
  rewrite app_cons. exact IH.
Qed.

Lemma HasPrefix_app (p x : string) : HasPrefix (p ++ x) p = true.
Proof. apply prefix_refl_app. Qed.

Lemma HasPrefix_iff (s p : string) :
  HasPrefix s p = true <-> exists x, s = p ++ x.
Proof.
  split; [apply prefix_inv | intros [x ->]; apply HasPrefix_app].
Qed.

Lemma TrimPrefix_app (p x : string) : TrimPrefix (p ++ x) p = x.
Proof. unfold TrimPrefix. by rewrite HasPrefix_app, skip_len_app. Qed.

Lemma app_assoc (a b c : string) : (a ++ b) ++ c = a ++ (b ++ c).
Proof.
  induction a as [|x a IH]; [done|]. by rewrite !app_cons, IH.
Qed.

Lemma app_empty_r (a : string) : a ++ "" = a.
Proof. induction a as [|x a IH]; [done|]. by rewrite app_cons, IH. Qed.

Lemma rev_app_spec (a b : string) : String.rev_app a b = String.rev a ++ b.
Proof.
  unfold String.rev. revert b; induction a as [|x a IH]; intros b; simpl; [done|].
  rewrite (IH (String x "")), (IH (String x b)). by rewrite app_assoc.
Qed.

Lemma rev_cons (x : ascii) (a : string) :
  String.rev (String x a) = String.rev a ++ String x "".
Proof. unfold String.rev at 1. simpl. apply rev_app_spec. Qed.

Lemma rev_app_distr (a b : string) :
  String.rev (a ++ b) = String.rev b ++ String.rev a.
Proof.
  induction a as [|x a IH].
  - by rewrite app_nil_l, app_empty_r.
  - by rewrite app_cons, !rev_cons, IH, app_assoc.
Qed.

Lemma rev_involutive (a : string) : String.rev (String.rev a) = a.
Proof.
  induction a as [|x a IH]; [done|].
  by rewrite rev_cons, rev_app_distr, IH.
Qed.

Lemma HasSuffix_iff (s p : string) :
  HasSuffix s p = true <-> exists x, s = x ++ p.
Proof.
  unfold HasSuffix. split.
  - intros H. apply prefix_inv in H as [x Hx]. exists (String.rev x).
    rewrite <- (rev_involutive s), Hx, rev_app_distr. by rewrite rev_involutive.
  - intros [x ->]. rewrite rev_app_distr. apply prefix_refl_app.
Qed.

Lemma countFrom_cons (c : ascii) (t substr : string) :
  countFrom 0 (String c t) substr
  = if String.prefix substr (String c t)
    then Datatypes.S (countFrom (len substr - 1) t substr)
    else countFrom 0 t substr.
Proof. reflexivity. Qed.

(** A text with a separator in it has a positive separator count. *)
Lemma Count_separator (a b : string) :
  (0 <? Count (a ++ "/" ++ b) "/")%nat = true.
Proof.
  unfold Count. induction a as [|c a IH].
  - rewrite app_nil_l, app_cons, app_nil_l, countFrom_cons.
    pose proof (prefix_refl_app "/" b) as H.
    rewrite app_cons, app_nil_l in H. by rewrite H.
  - rewrite app_cons, countFrom_cons.
    destruct (String.prefix _ _); [done | exact IH].
Qed.

Example TrimSpace_newline :
  TrimSpace ("  {a}" ++ String "010" "") = "{a}".
Proof. reflexivity. Qed.

(** U+00A0 and U+2003 around the text are white space; a lone
    continuation byte is not. *)
Example TrimSpace_unicode :
  TrimSpace (String "194" (String "160" ("{x}" ++ String "226" (String "128" (String "131" "")))))
  = "{x}"
  /\ TrimSpace (String "160" "{x}") = String "160" "{x}".
Proof. split; reflexivity. Qed.

Example Count_two : Count "a/b/c" "/" = 2%nat.
Proof. reflexivity. Qed.

End StringFacts.

(** ** The updater *)

Module UpdaterFacts.
Import Etcd UpdaterSpec UpdaterTerms.

Section Facts.

Context {V S W : Type} `{!FlagValue V} `{!KeysAPI S W}.

#[local] Abbreviation Updater := (Updater V S W).

(** [nodeToFlagName] reads nothing but the path. *)
Lemma nodeToFlagName_path (u u' : Updater) (node : Node) :
  etcdPath u' = etcdPath u -> nodeToFlagName u' node = nodeToFlagName u node.
Proof. intros E. unfold nodeToFlagName. by rewrite E. Qed.

Lemma frame_refl (u : Updater) : frame u u.
Proof. by repeat split. Qed.

Lemma frame_trans (u1 u2 u3 : Updater) : frame u1 u2 -> frame u2 u3 -> frame u1 u3.
Proof. unfold frame. intros H12 H23. destruct_and!. repeat split; congruence. Qed.

(** What [setFlag] does, case by case. *)
Lemma setFlag_cases (flagName value : string) (onlyDynamic : bool) (u : Updater) :
  (value = "" /\ setFlag flagName value onlyDynamic u = (u, Some errNoValue))
  \/ (value <> "" /\ flagSet u !! flagName = None
      /\ setFlag flagName value onlyDynamic u
         = (u, Some (errorString ("flag=" ++ flagName ++ " was not found"))))
  \/ (value <> "" /\ onlyDynamic = true
      /\ (exists flag, flagSet u !! flagName = Some flag /\ IsFlagDynamic flag = false)
      /\ setFlag flagName value onlyDynamic u = (u, Some errFlagNotDynamic))
  \/ (value <> "" /\ exists flag,
        flagSet u !! flagName = Some flag
        /\ (onlyDynamic = true -> IsFlagDynamic flag = true)
        /\ setFlag flagName value onlyDynamic u
           = (with_flagSet
                (<[flagName := mkFlag (fst (value_Set value (flagValue flag)))
                                      (IsFlagDynamic flag)]> (flagSet u)) u,
              errorString <$> snd (value_Set value (flagValue flag)))).
Proof.
  unfold setFlag. destruct (String.eqb_spec value "") as [->|Hne]; [by left|].
  right. destruct (flagSet u !! flagName) as [flag|] eqn:Hl; [|by left].
  right. destruct onlyDynamic, (IsFlagDynamic flag) eqn:Hd; simpl.
  2: { left. repeat split; eauto. }
  all: right; split; [done|]; exists flag; rewrite Hd;
    destruct (value_Set value (flagValue flag)); by repeat split.
Qed.

Lemma setFlag_frame (flagName value : string) (onlyDynamic : bool) (u : Updater) :
  frame u (fst (setFlag flagName value onlyDynamic u))
  /\ logger (fst (setFlag flagName value onlyDynamic u)) = logger u.
Proof.
  destruct (setFlag_cases flagName value onlyDynamic u)
    as [[_ ->]|[(_ & _ & ->)|[(_ & _ & _ & ->)|(_ & flag & _ & _ & ->)]]];
    by repeat split.
Qed.

(** The pass over a snapshot, entry by entry. *)
Lemma readNodes_cons (onlyDynamic : bool) (node : Node) (rest : list Node)
    (errs : list string) (u : Updater) :
  readNodes onlyDynamic (node :: rest) errs u
  = readNodes onlyDynamic rest (snd (readNodes onlyDynamic [node] errs u))
              (fst (readNodes onlyDynamic [node] errs u)).
Proof.
  simpl. destruct (nodeToFlagName u node) as [flagName|err]; [|done].
  destruct (setFlag flagName (Value node) onlyDynamic u) as [u1 [[]|]]; done.
Qed.

Lemma readNodes_app (onlyDynamic : bool) (l1 l2 : list Node)
    (errs : list string) (u : Updater) :
  readNodes onlyDynamic (l1 ++ l2)%list errs u
  = readNodes onlyDynamic l2 (snd (readNodes onlyDynamic l1 errs u))
              (fst (readNodes onlyDynamic l1 errs u)).
Proof.
  revert errs u. induction l1 as [|node l1 IH]; intros errs u; [done|].
  rewrite <- app_comm_cons, readNodes_cons, IH. by rewrite (readNodes_cons _ node l1).
Qed.

(** One entry: the state it leaves and the message it adds. *)
Lemma readNodes_one (onlyDynamic : bool) (node : Node) (errs : list string)
    (u : Updater) :
  snd (readNodes onlyDynamic [node] errs u)
  = (errs ++ option_list (failureOf onlyDynamic node u))%list
  /\ fst (readNodes onlyDynamic [node] errs u) = fst (readNodes onlyDynamic [node] [] u)
  /\ match nodeToFlagName u node with
     | Err err => fst (readNodes onlyDynamic [node] errs u) = Printf (LogIgnoring err) u
     | Ok flagName =>
         fst (readNodes onlyDynamic [node] errs u)
         = fst (setFlag flagName (Value node) onlyDynamic u)
     end.
Proof.
  unfold failureOf. simpl.
  destruct (nodeToFlagName u node) as [flagName|err]; simpl.
  - destruct (setFlag flagName (Value node) onlyDynamic u) as [u1 [[]|]]; simpl;
      by rewrite ?app_nil_r.
  - by rewrite app_nil_r.
Qed.

Lemma readNodes_frame (onlyDynamic : bool) (nodes : list Node) (errs : list string)
    (u : Updater) :
  frame u (fst (readNodes onlyDynamic nodes errs u)).
Proof.
  revert errs u. induction nodes as [|node rest IH]; intros errs u; [apply frame_refl|].
  rewrite readNodes_cons. eapply frame_trans; [|apply IH].
  destruct (readNodes_one onlyDynamic node errs u) as (_ & _ & Hst).
  destruct (nodeToFlagName u node); rewrite Hst; [apply setFlag_frame|by repeat split].
Qed.

(** The error strings only grow, and the state does not depend on them. *)
Lemma readNodes_errs (onlyDynamic : bool) (nodes : list Node) (errs : list string)
    (u : Updater) :
  snd (readNodes onlyDynamic nodes errs u)
  = (errs ++ snd (readNodes onlyDynamic nodes [] u))%list
  /\ fst (readNodes onlyDynamic nodes errs u) = fst (readNodes onlyDynamic nodes [] u).
Proof.
  revert errs u. induction nodes as [|node rest IH]; intros errs u.
  - simpl. by rewrite app_nil_r.
  - rewrite !(readNodes_cons _ node rest).
    destruct (readNodes_one onlyDynamic node errs u) as (He & Hs & _).
    destruct (readNodes_one onlyDynamic node [] u) as (He0 & _ & _).
    rewrite He, Hs, He0, app_nil_l.
    set (u1 := fst (readNodes onlyDynamic [node] [] u)).
    set (e1 := option_list (failureOf onlyDynamic node u)).
    destruct (IH (errs ++ e1)%list u1) as [-> ->].
    destruct (IH e1 u1) as [-> ->].
    by rewrite (assoc_L (++)).
Qed.

Lemma omap_ext_in {A B : Type} (f g : A -> option B) (l : list A) :
  (forall x, x ∈ l -> f x = g x) -> omap f l = omap g l.
Proof.
  induction l as [|a l IH]; intros Hfg; [done|]. csimpl.
  rewrite (Hfg a) by set_solver. rewrite IH; [done|]. intros x Hx. apply Hfg. set_solver.
Qed.

(** The error strings of a pass are the failures of its entries, in
order. *)
Lemma readNodes_failures (onlyDynamic : bool) (nodes : list Node) (u : Updater) :
  snd (readNodes onlyDynamic nodes [] u) = failures onlyDynamic nodes u.
Proof.
  induction nodes as [|node l IH] using rev_ind; [done|].
  rewrite readNodes_app.
  destruct (readNodes_one onlyDynamic node (snd (readNodes onlyDynamic l [] u))
              (fst (readNodes onlyDynamic l [] u))) as (-> & _ & _).
  rewrite IH. unfold failures. rewrite length_app. csimpl.
  rewrite Nat.add_1_r, seq_S, omap_app. csimpl. f_equal.
  - apply omap_ext_in. intros i Hi. apply elem_of_seq in Hi.
    unfold before. rewrite lookup_app_l by lia. by rewrite take_app_le by lia.
  - unfold before. rewrite list_lookup_middle by done. csimpl.
    rewrite take_app_length. by destruct (failureOf _ _ _).
Qed.

(** [setFlag] leaves every other flag alone. *)
Lemma setFlag_other (flagName value name : string) (onlyDynamic : bool) (u : Updater) :
  name <> flagName ->
  flagSet (fst (setFlag flagName value onlyDynamic u)) !! name = flagSet u !! name.
Proof.
  intros Hne.
  destruct (setFlag_cases flagName value onlyDynamic u)
    as [[_ ->]|[(_ & _ & ->)|[(_ & _ & _ & ->)|(_ & flag & _ & _ & ->)]]]; try done.
  simpl. by rewrite lookup_insert_ne.
Qed.

(** A pass leaves a flag alone that none of its entries names. *)
Lemma readNodes_untouched (onlyDynamic : bool) (nodes : list Node)
    (errs : list string) (u : Updater) (name : string) :
  (forall node, node ∈ nodes -> nodeToFlagName u node <> Ok name) ->
  flagSet (fst (readNodes onlyDynamic nodes errs u)) !! name = flagSet u !! name.
Proof.
  revert errs u. induction nodes as [|node rest IH]; intros errs u Hnone; [done|].
  rewrite readNodes_cons.
  pose proof (readNodes_frame onlyDynamic [node] errs u) as (_ & Hpath & _).
  rewrite IH.
  - destruct (readNodes_one onlyDynamic node errs u) as (_ & _ & Hst).
    assert (Hn := Hnone node ltac:(set_solver)).
    destruct (nodeToFlagName u node) as [flagName|err]; rewrite Hst; [|done].
    apply setFlag_other. congruence.
  - intros later Hin. rewrite (nodeToFlagName_path u) by done.
    apply Hnone. set_solver.
Qed.

(** A pass restricted to dynamic flags leaves every other flag as it is. *)
Lemma readNodes_static (nodes : list Node) (errs : list string) (u : Updater)
    (name : string) (flag : Flag V) :
  IsFlagDynamic flag = false ->
  flagSet u !! name = Some flag ->
  flagSet (fst (readNodes true nodes errs u)) !! name = Some flag.
Proof.
  intros Hstatic. revert errs u.
  induction nodes as [|node rest IH]; intros errs u Hflag; [done|].
  rewrite readNodes_cons. apply IH.
  destruct (readNodes_one true node errs u) as (_ & _ & Hst).
  destruct (nodeToFlagName u node) as [flagName|err]; rewrite Hst; [|done].
  destruct (setFlag_cases flagName (Value node) true u)
    as [[_ ->]|[(_ & _ & ->)|[(_ & _ & _ & ->)|(_ & flag' & Hl & Hd & ->)]]]; try done.
  simpl. rewrite lookup_insert_ne; [done|].
  intros <-. rewrite Hflag in Hl. injection Hl as <-.
  rewrite Hd in Hstatic; done.
Qed.

(** A key that is no leaf under the prefix is refused by
[nodeToFlagName]. *)
Lemma notALeaf_refused (u : Updater) (node : Node) :
  notALeaf (etcdPath u) node -> exists err, nodeToFlagName u node = Err err.
Proof.
  unfold nodeToFlagName. intros [Hdir|[Hpre|(segment & rest & Hkey)]].
  - rewrite Hdir. eauto.
  - destruct (Dir node); [eauto|]. rewrite Hpre. eauto.
  - destruct (Dir node); [eauto|].
    destruct (negb _); [eauto|].
    assert (TrimPrefix (Key node) (etcdPath u) = segment ++ "/" ++ rest) as ->
      by (rewrite Hkey; apply StringFacts.TrimPrefix_app).
    rewrite StringFacts.Count_separator. eauto.
Qed.

(** [readAllFlags] when the read succeeds, and when it fails. *)
Lemma readAllFlags_read (onlyDynamic : bool) (u : Updater) (resp : Response) (st : S) :
  keys_Get (context u) (etcdPath u) (etcdKeys u) = (Ok resp, st) ->
  let u0 := with_lastIndex (Index resp)
              (with_etcdKeys st (called (CallGet (etcdPath u)) u)) in
  let errs := failures onlyDynamic (Nodes (RNode resp)) u0 in
  readAllFlags onlyDynamic u
  = (fst (readNodes onlyDynamic (Nodes (RNode resp)) [] u0),
     if decide (errs = []) then None else Some (errEncountered errs)).
Proof.
  intros Hget u0 errs. unfold readAllFlags.
  rewrite Hget. simpl. fold u0.
  pose proof (readNodes_failures onlyDynamic (Nodes (RNode resp)) u0) as Hf.
  fold errs in Hf.
  destruct (readNodes onlyDynamic (Nodes (RNode resp)) [] u0) as [u1 es]. simpl in Hf.
  subst es. destruct errs; done.
Qed.

Lemma readAllFlags_failed (onlyDynamic : bool) (u : Updater) (err : error) (st : S) :
  keys_Get (context u) (etcdPath u) (etcdKeys u) = (Err err, st) ->
  readAllFlags onlyDynamic u
  = (with_etcdKeys st (called (CallGet (etcdPath u)) u), Some err).
Proof. intros Hget. unfold readAllFlags. by rewrite Hget. Qed.

(** [Initialize] on a fresh updater whose read succeeds. *)
Lemma Initialize_read (u : Updater) (resp : Response) (st : S) :
  lastIndex u = 0%N ->
  keys_Get (context u) (etcdPath u) (etcdKeys u) = (Ok resp, st) ->
  let u0 := with_lastIndex (Index resp)
              (with_etcdKeys st (called (CallGet (etcdPath u)) u)) in
  let errs := failures false (Nodes (RNode resp)) u0 in
  Initialize u
  = (fst (readNodes false (Nodes (RNode resp)) [] u0),
     if decide (errs = []) then None else Some (errEncountered errs)).
Proof.
  intros Hfresh Hget. unfold Initialize. rewrite Hfresh. simpl.
  by apply readAllFlags_read.
Qed.

(** The rollback itself: one call, the store's answer classified. *)
Lemma rollbackEtcdValue_once (flagName : string) (resp : Response) (u : Updater) :
  lastIndex u = ModifiedIndex (RNode resp) ->
  let answer := rollbackAnswer (context u) resp (etcdKeys u) in
  let u' := rollbackEtcdValue flagName resp u in
  calls u' = (calls u ++ [rollbackCall resp])%list
  /\ etcdKeys u' = snd answer
  /\ flagSet u' = flagSet u
  /\ lastIndex u' = lastIndex u
  /\ (exists line, rollbackLogged flagName (fst answer) line
                  /\ logger u' = (logger u ++ [line])%list).
Proof.
  intros Hidx. unfold rollbackEtcdValue, rollbackAnswer, rollbackCall.
  rewrite <- Hidx.
  destruct (PrevNode resp) as [prev|].
  - destruct (keys_Set _ _ _ _ _) as [[e|] st']; simpl.
    + destruct e as [code m c i| | | | | |];
        try (repeat split; try done; eexists; split;
             [apply logged_failure; intros (?&?&?&?); discriminate|done]).
      destruct (Z.eqb_spec code ErrorCodeTestFailed) as [->|Hne];
        repeat split; try done; eexists; (split; [|done]).
      * apply logged_conflict. by do 3 eexists.
      * apply logged_failure. intros (?&?&?&?). congruence.
    + repeat split; try done. eexists; split; [apply logged_success|done].
  - destruct (keys_Delete _ _ _ _) as [[e|] st']; simpl.
    + destruct e as [code m c i| | | | | |];
        try (repeat split; try done; eexists; split;
             [apply logged_failure; intros (?&?&?&?); discriminate|done]).
      destruct (Z.eqb_spec code ErrorCodeTestFailed) as [->|Hne];
        repeat split; try done; eexists; (split; [|done]).
      * apply logged_conflict. by do 3 eexists.
      * apply logged_failure. intros (?&?&?&?). congruence.
    + repeat split; try done. eexists; split; [apply logged_success|done].
Qed.

(** C1. A watched change that the flag's [Set] rejects is answered by
exactly one rollback: besides the [Next] that delivered the event, the
pass makes one call, the write of the previous value (or the delete, when
the event has no previous node) conditioned on the modified index of the
change.  A condition mismatch is logged as good, any other error as a
failure, and in every case the pass ends there and the loop goes on. *)
Theorem rejected_change_rolled_back_once
    (watcher watcher' : W) (u : Updater) (resp : Response) (st : S)
    (flagName : string) (flag : Flag V) (v : V) (reason : string) :
  watching u = true ->
  watcher_Next (context u) watcher (etcdKeys u) = (Ok resp, watcher', st) ->
  nodeToFlagName u (RNode resp) = Ok flagName ->
  Value (RNode resp) <> "" ->
  flagSet u !! flagName = Some flag ->
  IsFlagDynamic flag = true ->
  value_Set (Value (RNode resp)) (flagValue flag) = (v, Some reason) ->
  let u' := fst (watchIteration watcher u) in
  let answer := rollbackAnswer (context u) resp st in
  calls u' = (calls u ++ [CallNext; rollbackCall resp])%list
  /\ length (filter (fun c => isRollback c = true) (calls u'))
     = Datatypes.S (length (filter (fun c => isRollback c = true) (calls u)))
  /\ etcdKeys u' = snd answer
  /\ (exists line,
        rollbackLogged flagName (fst answer) line
        /\ logger u'
           = (logger u ++ [LogFailedUpdating flagName (ModifiedIndex (RNode resp))
                                             (errorString reason); line])%list)
  /\ snd (watchIteration watcher u) = Continue watcher'.
Proof.
  intros Hw Hnext Hname Hval Hflag Hdyn Hset.
  assert (Hcalls_next :
    watchIteration watcher u
    = (rollbackEtcdValue flagName resp
         (Printf (LogFailedUpdating flagName (ModifiedIndex (RNode resp))
                                    (errorString reason))
            (with_flagSet (<[flagName := mkFlag v (IsFlagDynamic flag)]> (flagSet u))
               (received resp st u))),
       Continue watcher')).
  { unfold watchIteration. rewrite Hw, Hnext. simpl.
    rewrite (nodeToFlagName_path u) by done. rewrite Hname.
    unfold setFlag. simpl.
    destruct (String.eqb_spec (Value (RNode resp)) "") as [|_]; [done|].
    rewrite Hflag, Hdyn, Hset. simpl. done. }
  rewrite Hcalls_next. simpl.
  match goal with |- context [rollbackEtcdValue ?n ?r ?x] =>
    destruct (rollbackEtcdValue_once n r x) as (Hc & Hk & _ & _ & line & Hl & Hlog);
      [done|] end.
  simpl in *. rewrite Hc, Hk, Hlog.
  repeat split.
  - by rewrite <- !(assoc_L (++)).
  - rewrite <- !(assoc_L (++)). rewrite !filter_app, !length_app.
    unfold rollbackCall. destruct (PrevNode resp); simpl; lia.
  - exists line. split; [done|]. by rewrite <- !(assoc_L (++)).
Qed.

(** An element of a joined list occurs in the joined text. *)
Lemma Join_mentions (a : list string) (sep x : string) :
  x ∈ a -> mentions (Join a sep) x.
Proof.
  induction a as [|y rest IH]; intros Hin; [by apply elem_of_nil in Hin|].
  apply elem_of_cons in Hin as [->|Hin].
  - destruct rest as [|z rest].
    + exists "", "". by rewrite StringFacts.app_empty_r.
    + exists "", (sep ++ Join (z :: rest) sep). done.
  - destruct (IH Hin) as (p & q & Hpq). destruct rest as [|z rest].
    + by apply elem_of_nil in Hin.
    + exists (y ++ sep ++ p), q.
      change (Join (y :: z :: rest) sep) with (y ++ sep ++ Join (z :: rest) sep).
      rewrite Hpq. by rewrite !StringFacts.app_assoc.
Qed.

Lemma mentions_prefixed (pre text part : string) :
  mentions text part -> mentions (pre ++ text) part.
Proof.
  intros (a & b & ->). exists (pre ++ a), b. by rewrite StringFacts.app_assoc.
Qed.

(** C2. [Initialize] attempts every entry of the snapshot it read: the
updater it leaves is the one after the last entry, and the error it
returns is the one aggregate of the failures of all entries, each entry
taken on the registry as the entries before it left it; there is no
error when no entry failed.  The text of that error is the count of the
failures followed by their messages, in the order of the entries and one
to a line, so the message of every failing entry occurs in it.  A
failure is a flag that is not registered or a value that the flag's
[Set] rejects; an entry with an empty value is no failure and changes
nothing.  A value that was accepted is in the registry right after its
entry and is still there in the end, whatever error is returned, unless
a later entry names the same flag. *)
Theorem Initialize_attempts_every_entry (u : Updater) (resp : Response) (st : S) :
  lastIndex u = 0%N ->
  keys_Get (context u) (etcdPath u) (etcdKeys u) = (Ok resp, st) ->
  let nodes := Nodes (RNode resp) in
  let u0 := with_lastIndex (Index resp)
              (with_etcdKeys st (called (CallGet (etcdPath u)) u)) in
  let errs := failures false nodes u0 in
  (fst (Initialize u) = fst (before false nodes (length nodes) u0)
   /\ snd (Initialize u)
      = (if decide (errs = []) then None else Some (errEncountered errs))
   /\ (forall e, snd (Initialize u) = Some e ->
                 errs <> []
                 /\ Error e
                    = "flagz: encountered " ++ pretty (length errs)
                      ++ " errors while parsing flags from etcd: " ++ nl ++ "  "
                      ++ Join errs nl))
  /\ (forall i node msg,
        nodes !! i = Some node ->
        failureOf false node (fst (before false nodes i u0)) = Some msg ->
        msg ∈ errs
        /\ snd (Initialize u) = Some (errEncountered errs)
        /\ exists e, snd (Initialize u) = Some e /\ mentions (Error e) msg)
  /\ (forall i node flagName,
        nodes !! i = Some node ->
        nodeToFlagName u node = Ok flagName ->
        Value node <> "" ->
        let ui := fst (before false nodes i u0) in
        (flagSet ui !! flagName = None ->
         failureOf false node ui = Some ("flag=" ++ flagName ++ " was not found"))
        /\ (forall flag v reason,
              flagSet ui !! flagName = Some flag ->
              value_Set (Value node) (flagValue flag) = (v, Some reason) ->
              failureOf false node ui = Some reason))
  /\ (forall i node flagName flag v,
        nodes !! i = Some node ->
        nodeToFlagName u node = Ok flagName ->
        Value node <> "" ->
        flagSet (fst (before false nodes i u0)) !! flagName = Some flag ->
        value_Set (Value node) (flagValue flag) = (v, None) ->
        flagSet (fst (before false nodes (Datatypes.S i) u0)) !! flagName
        = Some (mkFlag v (IsFlagDynamic flag))
        /\ ((forall j later, i < j -> nodes !! j = Some later ->
                             nodeToFlagName u later <> Ok flagName) ->
            flagSet (fst (Initialize u)) !! flagName
            = Some (mkFlag v (IsFlagDynamic flag))))
  /\ (forall i node,
        nodes !! i = Some node ->
        Value node = "" ->
        failureOf false node (fst (before false nodes i u0)) = None
        /\ flagSet (fst (before false nodes (Datatypes.S i) u0))
           = flagSet (fst (before false nodes i u0))).
Proof.
  intros Hfresh Hget nodes u0 errs.
  pose proof (Initialize_read u resp st Hfresh Hget) as Hinit.
  fold nodes u0 errs in Hinit.
  assert (Hpath : forall i, etcdPath (fst (before false nodes i u0)) = etcdPath u).
  { intros i. unfold before.
    by pose proof (readNodes_frame false (take i nodes) [] u0) as (_ & -> & _). }
  split; [|split; [|split; [|split]]].
  - rewrite Hinit. cbn [fst snd]. fold errs. split; [|split; [done|]].
    + unfold before. by rewrite firstn_all.
    + intros e. destruct (decide (errs = [])) as [|Hne]; [done|].
      intros [= <-]. by split.
  - intros i node msg Hi Hfail.
    assert (Hin : msg ∈ errs).
    { unfold errs, failures. apply list_elem_of_omap. exists i. split.
      - apply elem_of_seq. apply lookup_lt_Some in Hi. lia.
      - rewrite Hi. exact Hfail. }
    split; [done|]. rewrite Hinit. cbn [snd]. fold errs.
    destruct (decide (errs = [])) as [E|]; [rewrite E in Hin; set_solver|].
    split; [done|]. eexists. split; [done|].
    unfold errEncountered, Error. do 5 apply mentions_prefixed.
    by apply Join_mentions.
  - intros i node flagName Hi Hname Hval ui. unfold failureOf.
    rewrite (nodeToFlagName_path u) by apply Hpath. rewrite Hname.
    unfold setFlag. destruct (String.eqb_spec (Value node) "") as [|_]; [done|].
    split.
    + by intros ->.
    + intros flag v reason -> Hset. simpl. by rewrite Hset.
  - intros i node flagName flag v Hi Hname Hval Hflag Hset.
    set (ui := fst (before false nodes i u0)) in *.
    set (ei := snd (before false nodes i u0)).
    destruct (readNodes_one false node ei ui) as (_ & _ & Hst).
    rewrite (nodeToFlagName_path u) in Hst by apply Hpath. rewrite Hname in Hst.
    assert (Hafter : flagSet (fst (readNodes false [node] ei ui)) !! flagName
                     = Some (mkFlag v (IsFlagDynamic flag))).
    { rewrite Hst. unfold setFlag.
      destruct (String.eqb_spec (Value node) "") as [|_]; [done|].
      rewrite Hflag. simpl. rewrite Hset. simpl. by rewrite lookup_insert_eq. }
    split.
    + unfold before. rewrite (take_S_r nodes i node Hi), readNodes_app.
      fold (before false nodes i u0). exact Hafter.
    + intros Hlater. rewrite Hinit. cbn [fst].
      rewrite <- (take_drop_middle nodes i node Hi), readNodes_app, readNodes_cons.
      fold (before false nodes i u0). fold ui ei.
      rewrite readNodes_untouched; [exact Hafter|].
      intros later Hin. apply list_elem_of_lookup in Hin as [k Hk].
      rewrite lookup_drop in Hk.
      rewrite (nodeToFlagName_path u).
      * apply (Hlater (Datatypes.S i + k)%nat); [lia|done].
      * rewrite Hst. pose proof (setFlag_frame flagName (Value node) false ui)
          as ((_ & -> & _) & _). apply Hpath.
  - intros i node Hi Hempty.
    unfold before at 2. rewrite (take_S_r nodes i node Hi), readNodes_app.
    fold (before false nodes i u0).
    set (ui := fst (before false nodes i u0)).
    set (ei := snd (before false nodes i u0)).
    destruct (readNodes_one false node ei ui) as (_ & _ & Hst).
    unfold failureOf.
    destruct (nodeToFlagName ui node) as [flagName|err]; rewrite Hst;
      [|by split].
    unfold setFlag. rewrite Hempty. by split.
Qed.

(** A watched change that [setFlag] fails on, for any reason but a
missing value or a flag that is not dynamic, is logged and rolled back. *)
Lemma watchIteration_failed (watcher watcher' : W) (u : Updater) (resp : Response)
    (st : S) (flagName : string) (u1 : Updater) (err : error) :
  watching u = true ->
  watcher_Next (context u) watcher (etcdKeys u) = (Ok resp, watcher', st) ->
  nodeToFlagName u (RNode resp) = Ok flagName ->
  setFlag flagName (Value (RNode resp)) true (received resp st u) = (u1, Some err) ->
  err <> errNoValue -> err <> errFlagNotDynamic ->
  watchIteration watcher u
  = (rollbackEtcdValue flagName resp
       (Printf (LogFailedUpdating flagName (lastIndex u1) err) u1),
     Continue watcher').
Proof.
  intros Hw Hnext Hname Hset Hnv Hnd. unfold watchIteration.
  rewrite Hw, Hnext. simpl. fold (received resp st u).
  rewrite (nodeToFlagName_path u) by done. rewrite Hname, Hset.
  by destruct err.
Qed.

(** C3, as the code has it.  A watched change for a flag that is not
registered stays without effect on the registry and the loop goes on.
When the event carries no value it is ignored with a log line and no
call to the store; when it carries a value, the failed lookup is logged
and the change is rolled back by one conditioned write or delete, like a
rejected value. *)
Theorem unregistered_flag_change
    (watcher watcher' : W) (u : Updater) (resp : Response) (st : S)
    (flagName : string) :
  watching u = true ->
  watcher_Next (context u) watcher (etcdKeys u) = (Ok resp, watcher', st) ->
  nodeToFlagName u (RNode resp) = Ok flagName ->
  flagSet u !! flagName = None ->
  let u' := fst (watchIteration watcher u) in
  let index := ModifiedIndex (RNode resp) in
  snd (watchIteration watcher u) = Continue watcher'
  /\ flagSet u' = flagSet u
  /\ (Value (RNode resp) = "" ->
      calls u' = (calls u ++ [CallNext])%list
      /\ logger u' = (logger u ++ [LogIgnoringAction (Action resp) flagName index])%list)
  /\ (Value (RNode resp) <> "" ->
      calls u' = (calls u ++ [CallNext; rollbackCall resp])%list
      /\ exists line,
          rollbackLogged flagName (fst (rollbackAnswer (context u) resp st)) line
          /\ logger u'
             = (logger u
                ++ [LogFailedUpdating flagName index
                      (errorString ("flag=" ++ flagName ++ " was not found")); line])%list).
Proof.
  intros Hw Hnext Hname Hnone u' index.
  destruct (String.eqb_spec (Value (RNode resp)) "") as [Hempty|Hval].
  - assert (Hit : watchIteration watcher u
                  = (Printf (LogIgnoringAction (Action resp) flagName index)
                       (received resp st u), Continue watcher')).
    { unfold watchIteration. rewrite Hw, Hnext. simpl.
      rewrite (nodeToFlagName_path u) by done. rewrite Hname.
      unfold setFlag. by rewrite Hempty. }
    subst u'. rewrite Hit. simpl. repeat split; done.
  - assert (Hset : setFlag flagName (Value (RNode resp)) true (received resp st u)
                   = (received resp st u,
                      Some (errorString ("flag=" ++ flagName ++ " was not found")))).
    { unfold setFlag. destruct (String.eqb_spec (Value (RNode resp)) ""); [done|].
      simpl. by rewrite Hnone. }
    assert (Hit := watchIteration_failed watcher watcher' u resp st flagName _ _
                     Hw Hnext Hname Hset ltac:(done) ltac:(done)).
    subst u'. rewrite Hit. cbn [fst snd].
    match goal with |- context [rollbackEtcdValue ?n ?r ?x] =>
      destruct (rollbackEtcdValue_once n r x) as (Hc & _ & Hf & _ & line & Hl & Hlog);
        [done|] end.
    rewrite Hc, Hf, Hlog. simpl. repeat split; try done.
    + by rewrite <- !(assoc_L (++)).
    + exists line. split; [done|]. by rewrite <- !(assoc_L (++)).
Qed.

(** The pass over a snapshot reads the entries of the listing only,
never the nodes below them. *)
Lemma readNodes_shallow (onlyDynamic : bool) (nodes : list Node)
    (errs : list string) (u : Updater) :
  readNodes onlyDynamic (shallow <$> nodes) errs u = readNodes onlyDynamic nodes errs u.
Proof.
  revert errs u. induction nodes as [|node rest IH]; intros errs u; [done|].
  rewrite fmap_cons.
  rewrite (readNodes_cons _ (shallow node)), (readNodes_cons _ node), IH.
  assert (readNodes onlyDynamic [shallow node] errs u
          = readNodes onlyDynamic [node] errs u) as ->; [|done].
  unfold readNodes, nodeToFlagName, shallow. cbn [Key Value Dir]. reflexivity.
Qed.

(** A pass of [readNodes], whatever its [onlyDynamic], ignores an entry
whose key is no flag. *)
Lemma readNodes_ignores (onlyDynamic : bool) (nodes : list Node) (i : nat)
    (u0 : Updater) (node : Node) :
  notALeaf (etcdPath u0) node -> nodes !! i = Some node ->
  ignoredAt onlyDynamic nodes i u0.
Proof.
  intros Hbad Hi. unfold ignoredAt. cbv zeta.
  set (atEntry := before onlyDynamic nodes i u0).
  assert (Hnext : before onlyDynamic nodes (Datatypes.S i) u0
                  = readNodes onlyDynamic [node] (snd atEntry) (fst atEntry)).
  { unfold before. rewrite (take_S_r _ i node Hi), readNodes_app. done. }
  rewrite Hnext.
  destruct (readNodes_one onlyDynamic node (snd atEntry) (fst atEntry))
    as (He & _ & Hst).
  destruct (notALeaf_refused (fst atEntry) node) as [err Herr].
  { subst atEntry. unfold before.
    pose proof (readNodes_frame onlyDynamic (take i nodes) [] u0) as (_ & -> & _).
    exact Hbad. }
  rewrite Herr in Hst. rewrite He, Hst. unfold failureOf. rewrite Herr. simpl.
  rewrite app_nil_r. repeat split; eauto.
Qed.

(** The pass of the loop that meets the compacted-index error. *)
Lemma watchIteration_recovery (watcher watcher' : W) (u : Updater) (st : S)
    (message cause : string) (index : N) :
  watching u = true ->
  watcher_Next (context u) watcher (etcdKeys u)
  = (Err (EtcdError ErrorCodeEventIndexCleared message cause index), watcher', st) ->
  let u1 := Sleep 200
              (Printf (LogIndexError
                         (EtcdError ErrorCodeEventIndexCleared message cause index))
                 (with_etcdKeys st (called CallNext u))) in
  let u2 := fst (readAllFlags true u1) in
  watchIteration watcher u
  = (called (CallWatcher (etcdPath u2) (lastIndex u2)) u2,
     Continue (keys_Watcher (etcdPath u2) (lastIndex u2))).
Proof.
  intros Hw Hnext u1 u2. unfold watchIteration. rewrite Hw, Hnext. simpl.
  fold u1. subst u2. by destruct (readAllFlags true u1).
Qed.

(** C7. A directory node, a key outside the prefix and a key with a
further segment below the prefix never reach a flag.  Every pass of
[readNodes] over a listing, for all flags or for the dynamic ones only,
ignores such an entry: the registry, the collected errors, the calls and
the cursor stay as they were and one log line is written; and it reads
none of the nodes below the entries of the listing.  This holds for the
pass of [readAllFlags] on any updater, hence for the one of [Initialize]
and for the one the watch loop makes after the compacted-index error,
which are both given as that pass.  In the watch loop such an event
leaves the registry as it was, makes no call to the store, writes one
log line, and the loop goes on. *)
Theorem non_leaf_keys_never_update (u : Updater) (node : Node) :
  notALeaf (etcdPath u) node ->
  (forall onlyDynamic nodes (u0 : Updater) i,
      etcdPath u0 = etcdPath u ->
      nodes !! i = Some node ->
      ignoredAt onlyDynamic nodes i u0
      /\ readNodes onlyDynamic (shallow <$> nodes) [] u0
         = readNodes onlyDynamic nodes [] u0)
  /\ (forall onlyDynamic resp st i,
        keys_Get (context u) (etcdPath u) (etcdKeys u) = (Ok resp, st) ->
        Nodes (RNode resp) !! i = Some node ->
        let u0 := with_lastIndex (Index resp)
                    (with_etcdKeys st (called (CallGet (etcdPath u)) u)) in
        fst (readAllFlags onlyDynamic u)
        = fst (readNodes onlyDynamic (shallow <$> Nodes (RNode resp)) [] u0)
        /\ ignoredAt onlyDynamic (Nodes (RNode resp)) i u0)
  /\ (forall resp st i,
        lastIndex u = 0%N ->
        keys_Get (context u) (etcdPath u) (etcdKeys u) = (Ok resp, st) ->
        Nodes (RNode resp) !! i = Some node ->
        let u0 := with_lastIndex (Index resp)
                    (with_etcdKeys st (called (CallGet (etcdPath u)) u)) in
        let atEntry := before false (Nodes (RNode resp)) i u0 in
        let afterEntry := before false (Nodes (RNode resp)) (Datatypes.S i) u0 in
        flagSet (fst afterEntry) = flagSet (fst atEntry)
        /\ snd afterEntry = snd atEntry
        /\ calls (fst afterEntry) = calls (fst atEntry)
        /\ (exists err, logger (fst afterEntry)
                        = (logger (fst atEntry) ++ [LogIgnoring err])%list)
        /\ fst (Initialize u)
           = fst (readNodes false (shallow <$> Nodes (RNode resp)) [] u0))
  /\ (forall watcher watcher' st message cause index resp st' i,
        watching u = true ->
        watcher_Next (context u) watcher (etcdKeys u)
        = (Err (EtcdError ErrorCodeEventIndexCleared message cause index),
           watcher', st) ->
        keys_Get (context u) (etcdPath u) st = (Ok resp, st') ->
        Nodes (RNode resp) !! i = Some node ->
        let u1 := Sleep 200
                    (Printf (LogIndexError
                               (EtcdError ErrorCodeEventIndexCleared message cause index))
                       (with_etcdKeys st (called CallNext u))) in
        let u0 := with_lastIndex (Index resp)
                    (with_etcdKeys st' (called (CallGet (etcdPath u)) u1)) in
        fst (watchIteration watcher u)
        = called (CallWatcher (etcdPath u) (Index resp))
            (fst (readNodes true (shallow <$> Nodes (RNode resp)) [] u0))
        /\ ignoredAt true (Nodes (RNode resp)) i u0)
  /\ (forall watcher watcher' resp st,
        watching u = true ->
        watcher_Next (context u) watcher (etcdKeys u) = (Ok resp, watcher', st) ->
        RNode resp = node ->
        let u' := fst (watchIteration watcher u) in
        flagSet u' = flagSet u
        /\ calls u' = (calls u ++ [CallNext])%list
        /\ (exists err, logger u'
                        = (logger u ++ [LogIgnoringKey err (ModifiedIndex node)])%list)
        /\ snd (watchIteration watcher u) = Continue watcher').
Proof.
  intros Hbad. split; [|split; [|split; [|split]]].
  - intros onlyDynamic nodes u0 i Hpath Hi. split; [|apply readNodes_shallow].
    apply (readNodes_ignores onlyDynamic nodes i u0 node); [by rewrite Hpath|done].
  - intros onlyDynamic resp st i Hget Hi u0. split.
    + by rewrite readNodes_shallow, (readAllFlags_read onlyDynamic u resp st Hget).
    + by apply (readNodes_ignores onlyDynamic (Nodes (RNode resp)) i u0 node).
  - intros resp st i Hfresh Hget Hi u0 atEntry afterEntry.
    destruct (readNodes_ignores false (Nodes (RNode resp)) i u0 node Hbad Hi)
      as (H1 & H2 & H3 & _ & H4).
    repeat split; try done.
    rewrite readNodes_shallow. by rewrite (Initialize_read u resp st Hfresh Hget).
  - intros watcher watcher' st message cause index resp st' i Hw Hnext Hget Hi u1 u0.
    split; [|by apply (readNodes_ignores true (Nodes (RNode resp)) i u0 node)].
    pose proof (watchIteration_recovery watcher watcher' u st message cause index
                  Hw Hnext) as Hit.
    cbv zeta in Hit. rewrite Hit. cbn [fst]. fold u1.
    rewrite (readAllFlags_read true u1 resp st' Hget). cbn [fst].
    rewrite readNodes_shallow.
    match goal with |- context [readNodes true ?l [] ?x] =>
      pose proof (readNodes_frame true l [] x) as (_ & Hp & Hl & _) end.
    rewrite Hp, Hl. reflexivity.
  - intros watcher watcher' resp st Hw Hnext <- u'.
    destruct (notALeaf_refused u (RNode resp) Hbad) as [err Herr].
    assert (Hit : watchIteration watcher u
                  = (Printf (LogIgnoringKey err (ModifiedIndex (RNode resp)))
                       (received resp st u), Continue watcher')).
    { unfold watchIteration. rewrite Hw, Hnext. simpl.
      rewrite (nodeToFlagName_path u) by done. by rewrite Herr. }
    subst u'. rewrite Hit. simpl. repeat split; eauto.
Qed.

Lemma readAllFlags_static (u : Updater) (name : string) (flag : Flag V) :
  IsFlagDynamic flag = false ->
  flagSet u !! name = Some flag ->
  flagSet (fst (readAllFlags true u)) !! name = Some flag.
Proof.
  intros Hstatic Hflag.
  destruct (keys_Get (context u) (etcdPath u) (etcdKeys u)) as [[resp|err] st] eqn:Hget.
  - rewrite (readAllFlags_read true u resp st Hget). cbn [fst].
    by apply readNodes_static.
  - by rewrite (readAllFlags_failed true u err st Hget).
Qed.

(** A pass applies the value of an entry that alone names its flag:
when the flag is registered (and dynamic, if the pass is restricted to
dynamic flags) and its [Set] accepts the value, the registry holds the
new state after the pass. *)
Lemma readNodes_applies (onlyDynamic : bool) (nodes : list Node) (errs : list string)
    (u0 : Updater) (i : nat) (node : Node) (flagName : string) (flag : Flag V) (v : V) :
  nodes !! i = Some node ->
  nodeToFlagName u0 node = Ok flagName ->
  (forall j other, j <> i -> nodes !! j = Some other ->
                   nodeToFlagName u0 other <> Ok flagName) ->
  Value node <> "" ->
  flagSet u0 !! flagName = Some flag ->
  (onlyDynamic = true -> IsFlagDynamic flag = true) ->
  value_Set (Value node) (flagValue flag) = (v, None) ->
  flagSet (fst (readNodes onlyDynamic nodes errs u0)) !! flagName
  = Some (mkFlag v (IsFlagDynamic flag)).
Proof.
  intros Hi Hname Honly Hval Hflag Hdyn Hset.
  rewrite <- (take_drop_middle nodes i node Hi), readNodes_app, readNodes_cons.
  set (ui := fst (readNodes onlyDynamic (take i nodes) errs u0)).
  set (ei := snd (readNodes onlyDynamic (take i nodes) errs u0)).
  assert (Hpi : etcdPath ui = etcdPath u0)
    by (by pose proof (readNodes_frame onlyDynamic (take i nodes) errs u0)
          as (_ & ? & _)).
  assert (Hfi : flagSet ui !! flagName = Some flag).
  { subst ui. rewrite readNodes_untouched; [done|].
    intros other Hin. apply elem_of_take in Hin as (j & Hj & Hlt).
    apply (Honly j); [lia|done]. }
  destruct (readNodes_one onlyDynamic node ei ui) as (_ & _ & Hst).
  rewrite (nodeToFlagName_path u0) in Hst by done. rewrite Hname in Hst.
  assert (Hone : fst (readNodes onlyDynamic [node] ei ui)
                 = with_flagSet (<[flagName := mkFlag v (IsFlagDynamic flag)]> (flagSet ui))
                     ui).
  { rewrite Hst. unfold setFlag.
    destruct (String.eqb_spec (Value node) "") as [|_]; [done|].
    rewrite Hfi.
    assert (onlyDynamic && negb (IsFlagDynamic flag) = false) as ->
      by (destruct onlyDynamic; [by rewrite Hdyn|done]).
    by rewrite Hset. }
  rewrite readNodes_untouched.
  - rewrite Hone. simpl. apply lookup_insert_eq.
  - intros other Hin. apply list_elem_of_lookup in Hin as [k Hk].
    rewrite lookup_drop in Hk.
    rewrite (nodeToFlagName_path u0) by (by rewrite Hone).
    apply (Honly (Datatypes.S i + k)%nat); [lia|done].
Qed.

(** C6. The pass of the watch loop that meets the compacted-index
error reads the flags again for the dynamic flags only: every flag that
is not marked dynamic is in the registry afterwards exactly as before,
also when the fresh snapshot names it.  When that read returns a
response, its index is the new cursor and the watcher is opened again
after it, and a dynamic flag that the fresh snapshot names, with a value
the flag's [Set] accepts, holds that value afterwards. *)
Theorem recovery_applies_dynamic_flags_only
    (watcher watcher' : W) (u : Updater) (st : S)
    (message cause : string) (index : N) :
  watching u = true ->
  watcher_Next (context u) watcher (etcdKeys u)
  = (Err (EtcdError ErrorCodeEventIndexCleared message cause index), watcher', st) ->
  let u' := fst (watchIteration watcher u) in
  (forall name flag,
      flagSet u !! name = Some flag -> IsFlagDynamic flag = false ->
      flagSet u' !! name = Some flag)
  /\ (forall resp st',
        keys_Get (context u) (etcdPath u) st = (Ok resp, st') ->
        lastIndex u' = Index resp
        /\ snd (watchIteration watcher u)
           = Continue (keys_Watcher (etcdPath u) (Index resp))
        /\ calls u'
           = (calls u ++ [CallNext; CallSleep 200; CallGet (etcdPath u);
                          CallWatcher (etcdPath u) (Index resp)])%list
        /\ (forall i node flagName flag v,
              Nodes (RNode resp) !! i = Some node ->
              nodeToFlagName u node = Ok flagName ->
              (forall j other, j <> i -> Nodes (RNode resp) !! j = Some other ->
                               nodeToFlagName u other <> Ok flagName) ->
              Value node <> "" ->
              flagSet u !! flagName = Some flag ->
              IsFlagDynamic flag = true ->
              value_Set (Value node) (flagValue flag) = (v, None) ->
              flagSet u' !! flagName = Some (mkFlag v true))).
Proof.
  intros Hw Hnext u'.
  pose proof (watchIteration_recovery watcher watcher' u st message cause index
                Hw Hnext) as Hit.
  cbv zeta in Hit. subst u'. rewrite Hit. cbn [fst snd]. clear Hit.
  set (u1 := Sleep 200 _). split.
  - intros name flag Hflag Hstatic. simpl. by apply readAllFlags_static.
  - intros resp st' Hget.
    rewrite (readAllFlags_read true u1 resp st' Hget). cbn [fst].
    match goal with |- context [readNodes true ?l [] ?x] =>
      pose proof (readNodes_frame true l [] x) as (_ & Hp & Hl & _ & _ & Hc & _);
      pose proof (fun i node flagName flag v =>
                    readNodes_applies true l [] x i node flagName flag v) as Happ;
      set (u2 := fst (readNodes true l [] x)) in * end.
    cbn [lastIndex calls etcdPath called] in *. rewrite Hp, Hl, Hc. simpl.
    repeat split; [by rewrite <- !(assoc_L (++))|].
    intros i node flagName flag v Hi Hname Honly Hval Hflag Hdyn Hset.
    rewrite (Happ i node flagName flag v Hi); try done.
    + by rewrite Hdyn.
Qed.


(** No statement of the source assigns [false] to [watching], and the
cursor only takes indices that the store reported. *)
Lemma rollbackEtcdValue_kept (flagName : string) (resp : Response) (u : Updater) :
  watching (rollbackEtcdValue flagName resp u) = watching u
  /\ goroutines (rollbackEtcdValue flagName resp u) = goroutines u
  /\ lastIndex (rollbackEtcdValue flagName resp u) = lastIndex u.
Proof.
  unfold rollbackEtcdValue.
  destruct (PrevNode resp) as [prev|];
    [destruct (keys_Set _ _ _ _ _) as [[e|] st']
    |destruct (keys_Delete _ _ _ _) as [[e|] st']];
    try done; destruct e as [code ? ? ?| | | | | |]; try done;
    by destruct (code =? ErrorCodeTestFailed)%Z.
Qed.

Lemma readAllFlags_kept (onlyDynamic : bool) (u : Updater) :
  watching (fst (readAllFlags onlyDynamic u)) = watching u
  /\ goroutines (fst (readAllFlags onlyDynamic u)) = goroutines u
  /\ (indexesFromOne -> lastIndex u <> 0%N ->
      lastIndex (fst (readAllFlags onlyDynamic u)) <> 0%N).
Proof.
  destruct (keys_Get (context u) (etcdPath u) (etcdKeys u)) as [[resp|err] st] eqn:Hget.
  - rewrite (readAllFlags_read onlyDynamic u resp st Hget). cbn [fst].
    match goal with |- context [readNodes onlyDynamic ?l [] ?x] =>
      pose proof (readNodes_frame onlyDynamic l [] x)
        as (_ & _ & Hl & Hw & _ & _ & Hg) end.
    rewrite Hl, Hw, Hg. repeat split. intros [Hfrom _] _. simpl. by eapply Hfrom.
  - by rewrite (readAllFlags_failed onlyDynamic u err st Hget).
Qed.

Lemma watchIteration_kept (watcher : W) (u : Updater) :
  watching (fst (watchIteration watcher u)) = watching u
  /\ goroutines (fst (watchIteration watcher u)) = goroutines u
  /\ (indexesFromOne -> lastIndex u <> 0%N ->
      lastIndex (fst (watchIteration watcher u)) <> 0%N).
Proof.
  unfold watchIteration. destruct (watching u) eqn:Hw; simpl; [|done].
  destruct (watcher_Next (context u) watcher (etcdKeys u)) as [[r watcher'] st] eqn:Hnext.
  destruct r as [resp|err].
  - assert (Hidx : indexesFromOne -> ModifiedIndex (RNode resp) <> 0%N)
      by (intros [_ Hfrom]; by eapply Hfrom).
    set (u1 := with_lastIndex _ _).
    destruct (nodeToFlagName u1 (RNode resp)) as [flagName|err]; [|by repeat split; auto].
    pose proof (setFlag_frame flagName (Value (RNode resp)) true u1)
      as ((_ & _ & Hl & Hw1 & _ & _ & Hg) & _).
    destruct (setFlag flagName (Value (RNode resp)) true u1) as [u2 e].
    simpl in Hl, Hw1, Hg.
    destruct e as [e|]; [|by repeat split; simpl; rewrite ?Hl, ?Hw1, ?Hg; auto].
    destruct e; cbn [fst];
      try (by repeat split; simpl; rewrite ?Hl, ?Hw1, ?Hg; auto);
      match goal with |- context [rollbackEtcdValue ?n ?r ?x] =>
        destruct (rollbackEtcdValue_kept n r x) as (-> & -> & ->) end;
      by repeat split; simpl; rewrite ?Hl, ?Hw1, ?Hg; auto.
  - destruct err as [code ? ? ?| | | | | |]; try (by repeat split).
    destruct (code =? ErrorCodeEventIndexCleared)%Z; [|by repeat split].
    set (u1 := Sleep 200 _).
    destruct (readAllFlags_kept true u1) as (Hw1 & Hg & Hl).
    destruct (readAllFlags true u1) as [u2 e]. simpl in *.
    repeat split; auto; congruence.
Qed.

Lemma schedule_kept (i : nat) (u : Updater) :
  watching (schedule i u) = watching u
  /\ length (goroutines (schedule i u)) = length (goroutines u)
  /\ (indexesFromOne -> lastIndex u <> 0%N -> lastIndex (schedule i u) <> 0%N).
Proof.
  unfold schedule. destruct (goroutines u !! i) as [[|watcher|]|]; try done.
  - simpl. by rewrite length_insert.
  - destruct (watchIteration_kept watcher u) as (Hw & Hg & Hl).
    destruct (watchIteration watcher u) as [u1 [watcher'|]]; simpl in *;
      rewrite length_insert, Hg; by repeat split.
Qed.

(** Every operation keeps a watching updater watching and launches no
further goroutine; and the cursor stays off [0] when the store reports
no such index. *)
Lemma perform_watching (o : Op) (u : Updater) :
  watching u = true ->
  watching (fst (perform o u)) = true
  /\ length (goroutines (fst (perform o u))) = length (goroutines u)
  /\ (indexesFromOne -> lastIndex u <> 0%N -> lastIndex (fst (perform o u)) <> 0%N).
Proof.
  intros Hw. destruct o as [| | |i]; simpl.
  - unfold Initialize. destruct (N.eqb_spec (lastIndex u) 0); simpl; [|done].
    destruct (readAllFlags_kept false u) as (-> & -> & _). by repeat split.
  - unfold Start. rewrite Hw. by destruct (N.eqb_spec (lastIndex u) 0).
  - unfold Stop. rewrite Hw. simpl. by repeat split.
  - destruct (schedule_kept i u) as (Hw' & Hg & Hl').
    repeat split; [congruence|done|done].
Qed.

Lemma performAll_watching (ops : list Op) (u : Updater) :
  watching u = true ->
  watching (performAll ops u) = true
  /\ length (goroutines (performAll ops u)) = length (goroutines u)
  /\ (indexesFromOne -> lastIndex u <> 0%N -> lastIndex (performAll ops u) <> 0%N).
Proof.
  revert u. induction ops as [|o ops IH]; intros u Hw; [done|].
  unfold performAll. simpl. fold (performAll ops (fst (perform o u))).
  destruct (perform_watching o u Hw) as (Hw' & Hg & Hl).
  destruct (IH _ Hw') as (Hw'' & Hg' & Hl').
  repeat split; [done|congruence|auto].
Qed.

(** The cursor after an operation is the index that the store reported
to it, and the cursor before it when the store reported none. *)
Lemma readAllFlags_cursor (onlyDynamic : bool) (u : Updater) :
  lastIndex (fst (readAllFlags onlyDynamic u))
  = default (lastIndex u) (reportedByGet (etcdKeys u) u).
Proof.
  unfold reportedByGet.
  destruct (keys_Get (context u) (etcdPath u) (etcdKeys u)) as [[resp|err] st] eqn:Hget.
  - rewrite (readAllFlags_read onlyDynamic u resp st Hget). cbn [fst].
    match goal with |- context [readNodes onlyDynamic ?l [] ?x] =>
      pose proof (readNodes_frame onlyDynamic l [] x) as (_ & _ & Hl & _) end.
    by rewrite Hl.
  - by rewrite (readAllFlags_failed onlyDynamic u err st Hget).
Qed.

Lemma watchIteration_cursor (watcher : W) (u : Updater) :
  lastIndex (fst (watchIteration watcher u))
  = default (lastIndex u) (reportedToLoop watcher u).
Proof.
  unfold watchIteration, reportedToLoop. destruct (watching u) eqn:Hw; simpl; [|done].
  destruct (watcher_Next (context u) watcher (etcdKeys u)) as [[r watcher'] st] eqn:Hnext.
  destruct r as [resp|err].
  - set (u1 := with_lastIndex _ _).
    destruct (nodeToFlagName u1 (RNode resp)) as [flagName|err]; [|done].
    pose proof (setFlag_frame flagName (Value (RNode resp)) true u1)
      as ((_ & _ & Hl & _) & _).
    destruct (setFlag flagName (Value (RNode resp)) true u1) as [u2 e].
    simpl in Hl.
    destruct e as [e|]; [|done].
    destruct e; cbn [fst]; try done;
      match goal with |- context [rollbackEtcdValue ?n ?r ?x] =>
        destruct (rollbackEtcdValue_kept n r x) as (_ & _ & ->) end; done.
  - destruct err as [code ? ? ?| | | | | |]; try done.
    destruct (code =? ErrorCodeEventIndexCleared)%Z; [|done].
    set (u1 := Sleep 200 _).
    pose proof (readAllFlags_cursor true u1) as Hl.
    destruct (readAllFlags true u1) as [u2 e]. simpl in *. done.
Qed.

Lemma perform_cursor (o : Op) (u : Updater) :
  lastIndex (fst (perform o u)) = default (lastIndex u) (reported o u).
Proof.
  destruct o as [| | |i]; simpl.
  - unfold Initialize. destruct (N.eqb_spec (lastIndex u) 0); simpl; [|done].
    apply readAllFlags_cursor.
  - unfold Start. destruct (lastIndex u =? 0)%N; [done|]. by destruct (watching u).
  - unfold Stop. by destruct (watching u).
  - unfold schedule. destruct (goroutines u !! i) as [[|watcher|]|]; try done.
    pose proof (watchIteration_cursor watcher u) as Hl.
    by destruct (watchIteration watcher u) as [u1 [watcher'|]].
Qed.

(** While the store reports no index [0], the cursor stays off [0]. *)
Lemma noZeroReported_cursor (ops : list Op) (u : Updater) :
  noZeroReported ops u = true -> lastIndex u <> 0%N ->
  lastIndex (performAll ops u) <> 0%N.
Proof.
  revert u. induction ops as [|o ops IH]; intros u Hno Hl; [done|].
  unfold performAll. simpl. fold (performAll ops (fst (perform o u))).
  simpl in Hno. apply andb_prop in Hno as [Ho Hrest].
  apply IH; [done|]. rewrite perform_cursor.
  destruct (reported o u) as [index|]; [|done]. simpl.
  by destruct (N.eqb_spec index 0).
Qed.

(** A store whose indices start at one reports no index [0] in any run. *)
Lemma indexesFromOne_noZeroReported (ops : list Op) (u : Updater) :
  indexesFromOne -> noZeroReported ops u = true.
Proof.
  intros [HGet HNext]. revert u. induction ops as [|o ops IH]; intros u; [done|].
  simpl. rewrite IH, andb_true_r.
  assert (Hby : forall st (x : Updater) index,
             reportedByGet st x = Some index -> index <> 0%N).
  { intros st x index. unfold reportedByGet.
    destruct (keys_Get (context x) (etcdPath x) st) as [[resp|err] st'] eqn:Hget;
      [|done].
    intros [= <-]. by eapply HGet. }
  destruct (reported o u) as [index|] eqn:Hrep; [|done].
  apply negb_true_iff, N.eqb_neq.
  destruct o as [| | |i]; simpl in Hrep; try done.
  - destruct (lastIndex u =? 0)%N; [|done]. by eapply Hby.
  - destruct (goroutines u !! i) as [[|watcher|]|]; try done.
    unfold reportedToLoop in Hrep. destruct (negb (watching u)); [done|].
    destruct (watcher_Next (context u) watcher (etcdKeys u))
      as [[[resp|err] watcher'] st] eqn:Hnext.
    + injection Hrep as <-. by eapply HNext.
    + destruct err as [code ? ? ?| | | | | |]; try done.
      destruct (code =? ErrorCodeEventIndexCleared)%Z; [|done]. by eapply Hby.
Qed.

(** C10.  After a [Start] that succeeded, whatever the caller and the
goroutine do next, in any order, [watching] stays set: every later
[Stop] succeeds, also when the loop has already returned, and every
later [Start] fails and launches no second goroutine.  That [Start]
fails with the already-watching error in every run in which the store
reports no index [0] to the updater; the indices of the store start at
one, so this is every run on such a store.  (The index [0] is the value
the updater keeps for a cursor that was never set, and [Start] tests it
first.) *)
Theorem started_updater_is_never_restarted (u : Updater) (ops : list Op) :
  snd (Start u) = None ->
  let u' := performAll ops (fst (Start u)) in
  watching u' = true
  /\ snd (Stop u') = None
  /\ (Start u' = (u', Some errAlreadyWatching)
      \/ Start u' = (u', Some errNotInitialized))
  /\ length (goroutines u') = length (goroutines (fst (Start u)))
  /\ (noZeroReported ops (fst (Start u)) = true ->
      Start u' = (u', Some errAlreadyWatching))
  /\ (indexesFromOne ->
      noZeroReported ops (fst (Start u)) = true
      /\ Start u' = (u', Some errAlreadyWatching)).
Proof.
  intros Hstart u'.
  assert (Hs : watching (fst (Start u)) = true /\ lastIndex (fst (Start u)) <> 0%N).
  { unfold Start in *. destruct (N.eqb_spec (lastIndex u) 0); [done|].
    destruct (watching u); [done|]. by split. }
  destruct Hs as [Hw0 Hl0].
  destruct (performAll_watching ops _ Hw0) as (Hw & Hg & _). fold u' in Hw, Hg.
  assert (Hno : noZeroReported ops (fst (Start u)) = true ->
                Start u' = (u', Some errAlreadyWatching)).
  { intros Hno. unfold Start. rewrite Hw.
    destruct (N.eqb_spec (lastIndex u') 0) as [H0|]; [|done].
    by apply (noZeroReported_cursor ops _ Hno Hl0) in H0. }
  split; [done|]. split; [|split; [|split; [done|split; [done|]]]].
  - unfold Stop. by rewrite Hw.
  - unfold Start. rewrite Hw. destruct (N.eqb_spec (lastIndex u') 0); auto.
  - intros Hfrom.
    pose proof (indexesFromOne_noZeroReported ops (fst (Start u)) Hfrom) as Hrun.
    split; [done|by apply Hno].
Qed.

End Facts.

(** *** The statements on the scripted store *)

Import Fixture FixtureMore.

(** The change [a: 5 -> bogus] is answered by the write of ["5"]
conditioned on index 9. *)
Lemma rejected_change_rolled_back_once_witness :
  calls (fst (watchIteration 5%N (watchingOn [Ok eventBogus])))
  = (calls (watchingOn [Ok eventBogus]) ++ [CallNext; CallSet "/config/a" "5" 9])%list.
Proof.
  refine (proj1 (rejected_change_rolled_back_once
                   5%N 10%N (watchingOn [Ok eventBogus]) eventBogus
                   (mkScript (Ok snapshotUnknown) [] None)
                   "a" (mkFlag "5" true) "5"
                   "strconv.ParseInt: parsing bogus: invalid syntax"
                   _ _ _ _ _ _ _)); try reflexivity.
  discriminate.
Defined.

(** The snapshot with the unregistered flag: its failure is in the
aggregate that [Initialize] returns, and the text of the error names
it. *)
Lemma Initialize_attempts_every_entry_witness :
  "flag=unknown was not found"
    ∈ failures false (Nodes (RNode snapshotUnknown))
        (with_lastIndex 5
           (with_etcdKeys (mkScript (Ok snapshotUnknown) [] None)
              (called (CallGet "/config/") (fresh []))))
  /\ snd (Initialize (fresh []))
     = Some (errEncountered
               (failures false (Nodes (RNode snapshotUnknown))
                  (with_lastIndex 5
                     (with_etcdKeys (mkScript (Ok snapshotUnknown) [] None)
                        (called (CallGet "/config/") (fresh []))))))
  /\ (exists e, snd (Initialize (fresh [])) = Some e
                /\ mentions (Error e) "flag=unknown was not found")
  /\ Error (errEncountered ["flag=unknown was not found"])
     = "flagz: encountered 1 errors while parsing flags from etcd: " ++ nl
       ++ "  flag=unknown was not found".
Proof.
  pose proof (Initialize_attempts_every_entry
                (fresh []) snapshotUnknown
                (mkScript (Ok snapshotUnknown) [] None) eq_refl eq_refl)
    as ((_ & _ & Htext) & Hfail & _).
  destruct (Hfail 1%nat (leaf "/config/unknown" "1" 5) "flag=unknown was not found"
                  eq_refl eq_refl) as (H1 & H2 & H3).
  exact (conj H1 (conj H2 (conj H3 (proj2 (Htext _ eq_refl))))).
Defined.

(** C3 as stated fails: a change of a flag that is not registered is
rolled back, here by the conditioned delete of the new key. *)
Lemma unregistered_flag_change_is_rolled_back :
  flagSet (watchingOn [Ok eventUnknown]) !! "nosuchflag" = None
  /\ nodeToFlagName (watchingOn [Ok eventUnknown]) (RNode eventUnknown)
     = Ok "nosuchflag"
  /\ fst (fst (watcher_Next (context (watchingOn [Ok eventUnknown])) 5%N
                            (etcdKeys (watchingOn [Ok eventUnknown]))))
     = Ok eventUnknown
  /\ calls (fst (watchIteration 5%N (watchingOn [Ok eventUnknown])))
     = (calls (watchingOn [Ok eventUnknown])
        ++ [CallNext; CallDelete "/config/nosuchflag" 10])%list.
Proof. vm_compute. repeat split; reflexivity. Qed.

Lemma unregistered_flag_change_witness :
  snd (watchIteration 5%N (watchingOn [Ok eventUnknown])) = Continue 11%N
  /\ flagSet (fst (watchIteration 5%N (watchingOn [Ok eventUnknown])))
     = flagSet (watchingOn [Ok eventUnknown]).
Proof.
  pose proof (unregistered_flag_change
                5%N 11%N (watchingOn [Ok eventUnknown]) eventUnknown
                (mkScript (Ok snapshotUnknown) [] None) "nosuchflag"
                eq_refl eq_refl eq_refl eq_refl) as (H1 & H2 & _).
  exact (conj H1 H2).
Defined.



(** The recovery pass on the scripted store.  The fresh snapshot, read
at index 20, names both flags with new values: the dynamic flag [a]
takes its value, the static flag keeps the old one, and the cursor
moves from 5 to 20. *)
Lemma recovery_applies_dynamic_flags_only_witness :
  flagSet recovering !! "static" = Some (mkFlag "7" false)
  /\ flagSet (fst (watchIteration 5%N recovering)) !! "static" = Some (mkFlag "7" false)
  /\ flagSet recovering !! "a" = Some (mkFlag "1" true)
  /\ flagSet (fst (watchIteration 5%N recovering)) !! "a" = Some (mkFlag "6" true)
  /\ lastIndex recovering = 5%N
  /\ lastIndex (fst (watchIteration 5%N recovering)) = 20%N
  /\ snd (watchIteration 5%N recovering) = Continue 20%N.
Proof.
  pose proof (recovery_applies_dynamic_flags_only
                5%N 5%N recovering (mkScript (Ok snapshotFresh) [] None)
                "The event in requested index is outdated and cleared" "" 20%N
                eq_refl eq_refl) as [H1 H2].
  destruct (H2 snapshotFresh (mkScript (Ok snapshotFresh) [] None) eq_refl)
    as (H3 & H4 & _ & H5).
  assert (Ha : flagSet (fst (watchIteration 5%N recovering)) !! "a"
               = Some (mkFlag "6" true)).
  { apply (H5 1%nat (leaf "/config/a" "6" 18) "a" (mkFlag "1" true) "6");
      try reflexivity; [|discriminate].
    intros [|[|[|j]]] other Hj; try done; intros [= <-]; discriminate. }
  exact (conj eq_refl
           (conj (H1 "static" (mkFlag "7" false) eq_refl eq_refl)
              (conj eq_refl (conj Ha (conj eq_refl (conj H3 H4)))))).
Defined.

(** A change two segments below the prefix is only logged; and the
re-read after the compacted-index error ignores the directory
[/config/sub] of the fresh snapshot and does not read the key
[/config/sub/a] below it: the flag [a] takes the value 6 of the entry
[/config/a], the only one that names it. *)
Lemma non_leaf_keys_never_update_witness :
  (flagSet (fst (watchIteration 5%N (watchingOn [Ok eventNested])))
   = flagSet (watchingOn [Ok eventNested])
   /\ calls (fst (watchIteration 5%N (watchingOn [Ok eventNested])))
      = (calls (watchingOn [Ok eventNested]) ++ [CallNext])%list)
  /\ (let u0 := with_lastIndex 20
                  (with_etcdKeys (mkScript (Ok snapshotFresh) [] None)
                     (called (CallGet "/config/")
                        (Sleep 200
                           (Printf (LogIndexError errCompacted)
                              (with_etcdKeys (mkScript (Ok snapshotFresh) [] None)
                                 (called CallNext recovering)))))) in
      fst (watchIteration 5%N recovering)
      = called (CallWatcher "/config/" 20)
          (fst (readNodes true (shallow <$> Nodes (RNode snapshotFresh)) [] u0))
      /\ ignoredAt true (Nodes (RNode snapshotFresh)) 0 u0
      /\ logger (fst (before true (Nodes (RNode snapshotFresh)) 1 u0))
         = [LogIndexError errCompacted;
            LogIgnoring (errorString "key '/config/sub' is a directory entry")]
      /\ flagSet (fst (watchIteration 5%N recovering)) !! "a"
         = Some (mkFlag "6" true)).
Proof.
  assert (Hbad : notALeaf (etcdPath (watchingOn [Ok eventNested])) (RNode eventNested)).
  { right. right. exists "a", "b". reflexivity. }
  pose proof (proj2 (proj2 (proj2 (proj2 (non_leaf_keys_never_update
                       (watchingOn [Ok eventNested]) (RNode eventNested) Hbad))))
                5%N 12%N eventNested (mkScript (Ok snapshotUnknown) [] None)
                eq_refl eq_refl eq_refl) as (H1 & H2 & _).
  assert (Hdir : notALeaf (etcdPath recovering)
                   (dir "/config/sub" 17 [leaf "/config/sub/a" "3" 17])).
  { left. reflexivity. }
  pose proof (proj1 (proj2 (proj2 (proj2 (non_leaf_keys_never_update
                       recovering (dir "/config/sub" 17 [leaf "/config/sub/a" "3" 17])
                       Hdir))))
                5%N 5%N (mkScript (Ok snapshotFresh) [] None)
                "The event in requested index is outdated and cleared" "" 20%N
                snapshotFresh (mkScript (Ok snapshotFresh) [] None) 0%nat
                eq_refl eq_refl eq_refl eq_refl) as (H3 & H4).
  exact (conj (conj H1 H2) (conj H3 (conj H4 (conj eq_refl eq_refl)))).
Defined.

(** The condition on the indices is needed: were a store to report the
index [0] for a change, the loop would take it as its cursor, and a
later [Start] would fail with the not-initialized error; [watching]
stays set all the same. *)
Lemma Start_after_zero_index :
  snd (Start (fst (Initialize (fresh [Ok eventZero])))) = None
  /\ noZeroReported [OpSchedule 0; OpSchedule 0] (watchingOn [Ok eventZero]) = false
  /\ watching (performAll [OpSchedule 0; OpSchedule 0] (watchingOn [Ok eventZero]))
     = true
  /\ snd (Start (performAll [OpSchedule 0; OpSchedule 0] (watchingOn [Ok eventZero])))
     = Some errNotInitialized.
Proof. vm_compute. repeat split; reflexivity. Qed.

Lemma steady_indexesFromOne : @indexesFromOne unit unit steady.
Proof.
  split.
  - intros ctx path st resp st' H. injection H as <- _. discriminate.
  - intros ctx w st resp w' st' H. simpl in H.
    destruct (cancelled ctx); [discriminate|]. injection H as <- _ _. discriminate.
Qed.

(** On the steady store, whose indices start at one: the loop runs,
[Stop] cancels it, the loop returns, and still [Stop] succeeds and
[Start] is refused as already watching.  The same on the scripted store,
which could report any index: in the run through a rejected change and
the recovery from a compacted history it reports the indices 9 and 5. *)
Lemma started_updater_is_never_restarted_witness :
  (let u' := performAll [OpSchedule 0; OpSchedule 0; OpStop; OpSchedule 0; OpStop; OpStart]
               (fst (Start (fst (Initialize freshSteady)))) in
   goroutines u' = [Returned]
   /\ watching u' = true
   /\ snd (Stop u') = None
   /\ Start u' = (u', Some errAlreadyWatching))
  /\ (let u' := performAll [OpSchedule 0; OpSchedule 0; OpSchedule 0; OpStop; OpStart]
                  (fst (Start (fst (Initialize (fresh [Ok eventBogus; Err errCompacted]))))) in
      lastIndex u' = 5%N
      /\ watching u' = true
      /\ Start u' = (u', Some errAlreadyWatching)).
Proof.
  pose proof (started_updater_is_never_restarted
                (fst (Initialize freshSteady))
                [OpSchedule 0; OpSchedule 0; OpStop; OpSchedule 0; OpStop; OpStart]
                eq_refl) as (H1 & H2 & _ & _ & _ & H4).
  pose proof (started_updater_is_never_restarted
                (fst (Initialize (fresh [Ok eventBogus; Err errCompacted])))
                [OpSchedule 0; OpSchedule 0; OpSchedule 0; OpStop; OpStart]
                eq_refl) as (H5 & _ & _ & _ & H6 & _).
  exact (conj (conj eq_refl (conj H1 (conj H2 (proj2 (H4 steady_indexesFromOne)))))
              (conj eq_refl (conj H5 (H6 eq_refl)))).
Defined.

End UpdaterFacts.

(** ** The dynamic proto3 value *)

Module DynProto3Facts.
Import Protoflagz DynProto3Spec.

Section Facts.

Context {T Nf : Type} `{!Proto3 T}.

#[local] Abbreviation DynProto3Value := (DynProto3Value T Nf).

(** The struct that [reflect.New] hands out is a zero struct at a fresh
address. *)
Lemma load_new (d : DynProto3Value) : load (snd (new d)) (fst (new d)) = zeroStruct.
Proof. unfold load, new. simpl. by rewrite list_lookup_middle. Qed.

(** [Set] in one equation: the parser chosen by the look of the input
fills the fresh struct; an error of the parser or of the validator ends
the call, otherwise the pointer is swapped and the notifier launched. *)
Lemma Set_unfold (input : string) (d : DynProto3Value) :
  let parsed :=
    if looksLikeJSON input
    then jsonpb_UnmarshalString input zeroStruct
    else proto_Unmarshal input zeroStruct in
  let p := length (heap d) in
  let d1 := mkDyn (<[p := fst parsed]> (heap d ++ [zeroStruct])%list) (ptr d)
                  (validator d) (notifier d) (notified d) in
  Set_ input d
  = match snd parsed with
    | Some err => (d1, Some err)
    | None =>
        match
          match validator d with Some check => check (load d1 p) | None => None end
        with
        | Some err => (d1, Some err)
        | None =>
            let d2 := mkDyn (heap d1) p (validator d) (notifier d) (notified d) in
            match notifier d with
            | Some f => (go f (ptr d) p d2, None)
            | None => (d2, None)
            end
        end
    end.
Proof.
  intros parsed p d1. unfold Set_.
  pose proof (load_new d) as Hzero. destruct (new d) as [p' d0] eqn:Hnew.
  unfold new in Hnew. injection Hnew as <- <-. simpl in Hzero. rewrite Hzero.
  fold parsed. destruct parsed as [m [err|]]; [done|]. simpl.
  fold p. fold d1. by destruct (validator d) as [check|]; [destruct (check _)|].
Qed.

(** What was written at the fresh address is read back there, and the
structs allocated before are not touched. *)
Lemma load_fresh (d : DynProto3Value) (m : T) (p' : nat)
    (v : option (T -> option error)) (n : option Nf) (l : list (Nf * nat * nat)) :
  load (mkDyn (<[length (heap d) := m]> (heap d ++ [zeroStruct])%list) p' v n l)
       (length (heap d)) = m.
Proof.
  unfold load. simpl. rewrite list_lookup_insert_eq; [done|].
  rewrite length_app. simpl. lia.
Qed.

Lemma load_old (d : DynProto3Value) (m : T) (p p' : nat)
    (v : option (T -> option error)) (n : option Nf) (l : list (Nf * nat * nat)) :
  p < length (heap d) ->
  load (mkDyn (<[length (heap d) := m]> (heap d ++ [zeroStruct])%list) p' v n l) p
  = load d p.
Proof.
  intros Hp. unfold load. simpl.
  rewrite list_lookup_insert_ne by lia. by rewrite lookup_app_l.
Qed.

(** The pointer of a value made by [DynProto3] is an address of its
heap, and stays one through [Set]. *)
Lemma DynProto3_valid (value : T) : valid (DynProto3 (Nf := Nf) value).
Proof. unfold valid. simpl. lia. Qed.

Lemma Set_valid (input : string) (d : DynProto3Value) :
  valid d -> valid (fst (Set_ input d)).
Proof.
  unfold valid. intros Hv. rewrite Set_unfold. cbv zeta.
  assert (Hlen : length (<[length (heap d) :=
                    fst (if looksLikeJSON input
                         then jsonpb_UnmarshalString input zeroStruct
                         else proto_Unmarshal input zeroStruct)]>
                    (heap d ++ [zeroStruct])%list) = Datatypes.S (length (heap d)))
    by (rewrite length_insert, length_app; simpl; lia).
  destruct (snd _) as [e|]; [simpl; lia|].
  destruct (match validator d with Some check => _ | None => None end) as [e|];
    [simpl; lia|].
  destruct (notifier d); simpl; lia.
Qed.

(** C4. A [Set] that returns an error, from either parser or from the
validator, leaves the value alone: [Get] returns the same pointer, the
struct behind it (and every struct allocated before) is unchanged, the
hooks are the same, and no notifier has been launched. *)
Theorem failed_Set_changes_nothing (input : string) (d : DynProto3Value) (err : error) :
  snd (Set_ input d) = Some err ->
  let d' := fst (Set_ input d) in
  Get d' = Get d
  /\ notified d' = notified d
  /\ validator d' = validator d
  /\ notifier d' = notifier d
  /\ (forall p, p < length (heap d) -> load d' p = load d p)
  /\ (valid d -> load d' (Get d') = load d (Get d)).
Proof.
  intros Herr d'. subst d'. revert Herr.
  rewrite Set_unfold. cbv zeta.
  set (parsed := if looksLikeJSON input then _ else _).
  assert (Hold : forall p' v n l p, p < length (heap d) ->
            load (mkDyn (<[length (heap d) := fst parsed]> (heap d ++ [zeroStruct])%list)
                        p' v n l) p = load d p)
    by (intros; by apply load_old).
  destruct (snd parsed) as [e|].
  - intros _. simpl. repeat split; [apply Hold|intros Hv; by apply Hold].
  - destruct (match validator d with Some check => _ | None => None end) as [e|].
    + intros _. simpl. repeat split; [apply Hold|intros Hv; by apply Hold].
    + by destruct (notifier d).
Qed.

(** The look of the input, in words. *)
Lemma looksLikeJSON_bracketed (input : string) :
  looksLikeJSON input = true <-> bracketed (TrimSpace input).
Proof.
  unfold looksLikeJSON, bracketed.
  rewrite andb_true_iff, StringFacts.HasPrefix_iff, StringFacts.HasSuffix_iff. done.
Qed.

(** C8. [Set] picks the decoding by the look of its input: when the
input, trimmed of white space, starts with an opening and ends with a
closing brace, the untrimmed input goes to the JSONPB parser, otherwise
to the binary parser.  An error of the chosen parser is the error of
[Set], and a [Set] that succeeds has published what the chosen parser
produced from a zero struct. *)
Theorem Set_picks_the_decoding (input : string) (d : DynProto3Value) :
  let d' := fst (Set_ input d) in
  (looksLikeJSON input = true <-> bracketed (TrimSpace input))
  /\ (bracketed (TrimSpace input) ->
      (forall m err, jsonpb_UnmarshalString input zeroStruct = (m, Some err) ->
                     snd (Set_ input d) = Some err)
      /\ (snd (Set_ input d) = None ->
          exists m, jsonpb_UnmarshalString input zeroStruct = (m, None)
                    /\ load d' (Get d') = m))
  /\ (~ bracketed (TrimSpace input) ->
      (forall m err, proto_Unmarshal input zeroStruct = (m, Some err) ->
                     snd (Set_ input d) = Some err)
      /\ (snd (Set_ input d) = None ->
          exists m, proto_Unmarshal input zeroStruct = (m, None)
                    /\ load d' (Get d') = m)).
Proof.
  intros d'. split; [apply looksLikeJSON_bracketed|].
  assert (Hgen : forall parsed : T * option error,
    (if looksLikeJSON input
     then jsonpb_UnmarshalString input zeroStruct
     else proto_Unmarshal input zeroStruct) = parsed ->
    (forall m err, parsed = (m, Some err) -> snd (Set_ input d) = Some err)
    /\ (snd (Set_ input d) = None ->
        exists m, parsed = (m, None) /\ load d' (Get d') = m)).
  { intros parsed Hparsed. subst d'. rewrite Set_unfold. cbv zeta. rewrite Hparsed.
    destruct parsed as [m [e|]]; simpl.
    - split; [by intros ? ? [= <- <-]|done].
    - split; [done|].
      destruct (match validator d with Some check => _ | None => None end) as [e|];
        [done|].
      intros _. exists m. split; [done|].
      destruct (notifier d); apply load_fresh. }
  split.
  - intros Hb. apply looksLikeJSON_bracketed in Hb. apply Hgen. by rewrite Hb.
  - intros Hb. apply Hgen.
    destruct (looksLikeJSON input) eqn:Hl; [|done].
    by apply looksLikeJSON_bracketed in Hl.
Qed.

(** C9, as the code has it.  When the current value serializes, the
protobuf library round-trips and the validator, if one is installed,
accepts the value, then [Set] of the text that [String] returns succeeds
and [Get] returns a message equal to the one serialized. *)
Theorem Set_of_String_round_trips
    (Equal : T -> T -> Prop) (d : DynProto3Value) (out : string) :
  roundTrips Equal ->
  jsonpb_MarshalToString (mkMarshaler "" true) (load d (Get d)) = inl out ->
  accepts Equal d (load d (Get d)) ->
  let d' := fst (Set_ (String_ d) d) in
  String_ d = out
  /\ snd (Set_ (String_ d) d) = None
  /\ Equal (load d' (Get d')) (load d (Get d)).
Proof.
  intros Hrt Hout Hacc d'.
  assert (Hs : String_ d = out) by (unfold String_; by rewrite Hout).
  subst d'. rewrite Hs. split; [done|].
  destruct (Hrt _ _ Hout) as (Hlook & m' & Hparse & Heq).
  rewrite Set_unfold. cbv zeta. rewrite Hlook, Hparse. cbn [fst snd].
  assert (Hok : forall check, validator d = Some check -> check m' = None)
    by (intros check Hv; by apply (Hacc check m')).
  destruct (validator d) as [check|];
    [rewrite load_fresh, (Hok check eq_refl)|];
    destruct (notifier d); cbn [fst snd]; (split; [done|]);
    unfold Get, go; cbn [ptr heap]; by rewrite load_fresh.
Qed.

End Facts.

(** *** The statements on the toggle message *)

Import Toggle.

Example Set_json_then_wire :
  let d := DynProto3 (Nf := unit) false in
  load (fst (Set_ ("  " ++ jsonTrue) d)) (Get (fst (Set_ ("  " ++ jsonTrue) d))) = true
  /\ load (fst (Set_ wireTrue d)) (Get (fst (Set_ wireTrue d))) = true
  /\ snd (Set_ "{nonsense}" d) = Some "invalid character looking for beginning of value"
  /\ snd (Set_ "nonsense" d) = Some "proto: illegal wireType".
Proof. vm_compute. repeat split; reflexivity. Qed.

(** Braces send the text to the JSONPB parser, anything else to the
binary parser, and the error of that parser comes back. *)
Lemma Set_picks_the_decoding_witness :
  snd (Set_ "  {nonsense} " (DynProto3 (Nf := unit) false))
  = Some "invalid character looking for beginning of value"
  /\ snd (Set_ "nonsense" (DynProto3 (Nf := unit) false))
     = Some "proto: illegal wireType".
Proof.
  pose proof (Set_picks_the_decoding "  {nonsense} " (DynProto3 (Nf := unit) false))
    as (_ & Hjson & _).
  pose proof (Set_picks_the_decoding "nonsense" (DynProto3 (Nf := unit) false))
    as (_ & _ & Hwire).
  split.
  - refine (proj1 (Hjson _) false _ eq_refl).
    split; [by exists "nonsense}"|by exists "{nonsense"].
  - refine (proj1 (Hwire _) false _ eq_refl).
    intros [[rest Hrest] _]. vm_compute in Hrest. discriminate.
Defined.

(** A text that neither parser takes leaves the value as it is. *)
Lemma failed_Set_changes_nothing_witness :
  Get (fst (Set_ "{nonsense}" (WithNotifier tt (DynProto3 true))))
  = Get (WithNotifier tt (DynProto3 true))
  /\ notified (fst (Set_ "{nonsense}" (WithNotifier tt (DynProto3 true)))) = [].
Proof.
  pose proof (failed_Set_changes_nothing
                "{nonsense}" (WithNotifier tt (DynProto3 true))
                "invalid character looking for beginning of value" eq_refl)
    as (H1 & H2 & _).
  exact (conj H1 H2).
Defined.

(** C9 as stated fails: the initial value was never validated, so a
validator may refuse the very text that [String] returns for it. *)
Lemma Set_of_String_is_refused_by_validator :
  jsonpb_MarshalToString (mkMarshaler "" true)
    (load (WithValidator (Nf := unit) mustBeEnabled (DynProto3 false))
          (Get (WithValidator (Nf := unit) mustBeEnabled (DynProto3 false))))
  = inl "{}"
  /\ String_ (WithValidator (Nf := unit) mustBeEnabled (DynProto3 false)) = "{}"
  /\ snd (Set_ (String_ (WithValidator (Nf := unit) mustBeEnabled (DynProto3 false)))
               (WithValidator (Nf := unit) mustBeEnabled (DynProto3 false)))
     = Some "must be enabled".
Proof. vm_compute. repeat split; reflexivity. Qed.

Lemma toggle_roundTrips : roundTrips (T := bool) eq.
Proof.
  intros m out H. injection H as <-. destruct m.
  - split; [reflexivity|]. exists true. split; reflexivity.
  - split; [reflexivity|]. exists false. split; reflexivity.
Qed.

Lemma Set_of_String_round_trips_witness :
  snd (Set_ (String_ (WithValidator (Nf := unit) mustBeEnabled (DynProto3 true)))
            (WithValidator (Nf := unit) mustBeEnabled (DynProto3 true))) = None
  /\ load (fst (Set_ (String_ (WithValidator (Nf := unit) mustBeEnabled (DynProto3 true)))
                     (WithValidator (Nf := unit) mustBeEnabled (DynProto3 true))))
          (Get (fst (Set_ (String_ (WithValidator (Nf := unit) mustBeEnabled
                                       (DynProto3 true)))
                          (WithValidator (Nf := unit) mustBeEnabled (DynProto3 true)))))
     = true.
Proof.
  assert (Hacc : accepts eq (WithValidator (Nf := unit) mustBeEnabled (DynProto3 true))
                         true).
  { intros check m' [= <-] ->. reflexivity. }
  pose proof (Set_of_String_round_trips
                eq (WithValidator (Nf := unit) mustBeEnabled (DynProto3 true))
                jsonTrue toggle_roundTrips eq_refl Hacc) as (_ & H2 & H3).
  exact (conj H2 H3).
Defined.

End DynProto3Facts.

(** ** The updater: keys, start-up and the passes of the watch loop *)

Module UpdaterMore.
Import Etcd UpdaterSpec UpdaterTerms UpdaterFacts.

Section More.

Context {V S W : Type} `{!FlagValue V} `{!KeysAPI S W}.

#[local] Abbreviation Updater := (Updater V S W).

(** A key under the prefix is the prefix followed by what
[TrimPrefix] leaves. *)
Lemma HasPrefix_TrimPrefix (key path : string) :
  HasPrefix key path = true -> key = path ++ TrimPrefix key path.
Proof.
  intros H. apply StringFacts.HasPrefix_iff in H as [x ->].
  by rewrite StringFacts.TrimPrefix_app.
Qed.

(** A positive separator count shows a separator. *)
Lemma Count_positive_split (s : string) :
  (0 <? Count s "/")%nat = true -> exists a b, s = a ++ "/" ++ b.
Proof.
  unfold Count. induction s as [|c t IH]; [done|].
  rewrite StringFacts.countFrom_cons.
  destruct (String.prefix "/" (String c t)) eqn:Hp.
  - intros _. apply StringFacts.prefix_inv in Hp as [x Hx]. by exists "", x.
  - intros H. destruct (IH H) as (a & b & ->). by exists (String c a), b.
Qed.

Lemma Count_zero_noSeparator (s : string) :
  (0 <? Count s "/")%nat = false <-> noSeparator s.
Proof.
  split.
  - intros H a b ->. by rewrite StringFacts.Count_separator in H.
  - intros Hno. destruct (0 <? Count s "/")%nat eqn:Hc; [|done].
    destruct (Count_positive_split s Hc) as (a & b & ->). by destruct (Hno a b).
Qed.

(** X2. [nodeToFlagName] accepts exactly the leaves of the prefix and
returns what follows the prefix in the key: the result is [Ok name] if
and only if the node is no directory, its key is the prefix followed by
[name], and [name] has no separator; it is an error if and only if the
node is a directory, lies outside the prefix or has a further separator
below it. *)
Theorem nodeToFlagName_accepts_exactly_the_leaves (u : Updater) (node : Node) :
  (forall name,
      nodeToFlagName u node = Ok name
      <-> Dir node = false /\ Key node = etcdPath u ++ name /\ noSeparator name)
  /\ ((exists err, nodeToFlagName u node = Err err) <-> notALeaf (etcdPath u) node).
Proof.
  split.
  - intros name. unfold nodeToFlagName. split.
    + destruct (Dir node); [done|].
      destruct (HasPrefix (Key node) (etcdPath u)) eqn:Hp; [|done]. simpl.
      destruct (0 <? Count _ "/")%nat eqn:Hc; [done|].
      intros [= <-]. repeat split.
      * by apply HasPrefix_TrimPrefix.
      * by apply Count_zero_noSeparator.
    + intros (-> & Hkey & Hno). rewrite Hkey.
      rewrite StringFacts.HasPrefix_app, StringFacts.TrimPrefix_app. simpl.
      apply Count_zero_noSeparator in Hno. by rewrite Hno.
  - split; [|apply notALeaf_refused].
    intros [err Herr]. unfold nodeToFlagName in Herr. unfold notALeaf.
    destruct (Dir node); [by left|]. right.
    destruct (HasPrefix (Key node) (etcdPath u)) eqn:Hp; [|by left]. right.
    simpl in Herr. destruct (0 <? Count _ "/")%nat eqn:Hc; [|done].
    destruct (Count_positive_split _ Hc) as (a & b & Hab).
    exists a, b. rewrite <- Hab. by apply HasPrefix_TrimPrefix.
Qed.

(** X1. [New] keeps the prefix with exactly one thing done to it: a
prefix that does not end in the separator gets one appended, so the
stored prefix always ends in the separator, a prefix that already does
is kept as it is, and normalizing twice changes nothing. *)
Theorem New_normalizes_the_prefix (set : gmap string (Flag V)) (keysApi : S)
    (path : string) :
  HasSuffix (etcdPath (New (W := W) set keysApi path)) "/" = true
  /\ (HasSuffix path "/" = true -> etcdPath (New (W := W) set keysApi path) = path)
  /\ (HasSuffix path "/" = false ->
      etcdPath (New (W := W) set keysApi path) = path ++ "/")
  /\ New (W := W) set keysApi (etcdPath (New (W := W) set keysApi path))
     = New set keysApi path.
Proof.
  unfold New. simpl. destruct (HasSuffix path "/") eqn:Hs; simpl.
  - rewrite Hs. simpl. by repeat split.
  - assert (Hn : HasSuffix (path ++ "/") "/" = true)
      by (apply StringFacts.HasSuffix_iff; by exists path).
    rewrite Hn. simpl. by repeat split.
Qed.

(** A failing entry is among the failures of its snapshot. *)
Lemma failures_elem (onlyDynamic : bool) (nodes : list Node) (u : Updater)
    (i : nat) (node : Node) (msg : string) :
  nodes !! i = Some node ->
  failureOf onlyDynamic node (fst (before onlyDynamic nodes i u)) = Some msg ->
  msg ∈ failures onlyDynamic nodes u.
Proof.
  intros Hi Hfail. unfold failures. apply list_elem_of_omap. exists i. split.
  - apply elem_of_seq. apply lookup_lt_Some in Hi. lia.
  - rewrite Hi. exact Hfail.
Qed.

(** X13. The text of the error that [Initialize] returns names every
failure: the message of each entry that failed, wherever it stands in
the snapshot, occurs in it. *)
Theorem aggregate_error_mentions_every_failure
    (u : Updater) (resp : Response) (st : S) (i : nat) (node : Node) (msg : string) :
  lastIndex u = 0%N ->
  keys_Get (context u) (etcdPath u) (etcdKeys u) = (Ok resp, st) ->
  Nodes (RNode resp) !! i = Some node ->
  failureOf false node
    (fst (before false (Nodes (RNode resp)) i
            (with_lastIndex (Index resp)
               (with_etcdKeys st (called (CallGet (etcdPath u)) u))))) = Some msg ->
  exists e, snd (Initialize u) = Some e /\ mentions (Error e) msg.
Proof.
  intros Hfresh Hget Hi Hfail.
  rewrite (Initialize_read u resp st Hfresh Hget). cbn [snd].
  pose proof (failures_elem false _ _ i node msg Hi Hfail) as Hin.
  destruct (decide (_ = [])) as [E|_]; [rewrite E in Hin; by apply elem_of_nil in Hin|].
  eexists. split; [done|]. unfold errEncountered, Error.
  do 5 apply mentions_prefixed. by apply Join_mentions.
Qed.

(** The pass of the loop that receives an event, in one equation. *)
Lemma watchIteration_event (watcher watcher' : W) (u : Updater) (resp : Response)
    (st : S) :
  watching u = true ->
  watcher_Next (context u) watcher (etcdKeys u) = (Ok resp, watcher', st) ->
  watchIteration watcher u
  = match nodeToFlagName u (RNode resp) with
    | Err err =>
        (Printf (LogIgnoringKey err (ModifiedIndex (RNode resp))) (received resp st u),
         Continue watcher')
    | Ok flagName =>
        let '(u1, err) :=
          setFlag flagName (Value (RNode resp)) true (received resp st u) in
        match err with
        | Some errNoValue =>
            (Printf (LogIgnoringAction (Action resp) flagName (lastIndex u1)) u1,
             Continue watcher')
        | Some errFlagNotDynamic =>
            (Printf (LogIgnoringUpdate flagName (lastIndex u1) errFlagNotDynamic) u1,
             Continue watcher')
        | Some err =>
            (rollbackEtcdValue flagName resp
               (Printf (LogFailedUpdating flagName (lastIndex u1) err) u1),
             Continue watcher')
        | None =>
            (Printf (LogUpdated flagName (Value (RNode resp)) (lastIndex u1)) u1,
             Continue watcher')
        end
    end.
Proof.
  intros Hw Hnext. unfold watchIteration. rewrite Hw, Hnext. simpl.
  fold (received resp st u). rewrite (nodeToFlagName_path u) by done.
  destruct (nodeToFlagName u (RNode resp)); [|done].
  by destruct (setFlag _ _ _ _) as [u1 [[]|]].
Qed.

(** X3. A watched change that names a registered dynamic flag and whose
value the flag accepts is applied: the registry holds the flag with the
state its [Set] produced and the marker it had, the cursor is at the
change, the only call made is the [Next] that delivered it, one line is
logged, and the loop goes on. *)
Theorem accepted_change_is_applied
    (watcher watcher' : W) (u : Updater) (resp : Response) (st : S)
    (flagName : string) (flag : Flag V) (v : V) :
  watching u = true ->
  watcher_Next (context u) watcher (etcdKeys u) = (Ok resp, watcher', st) ->
  nodeToFlagName u (RNode resp) = Ok flagName ->
  Value (RNode resp) <> "" ->
  flagSet u !! flagName = Some flag ->
  IsFlagDynamic flag = true ->
  value_Set (Value (RNode resp)) (flagValue flag) = (v, None) ->
  let u' := fst (watchIteration watcher u) in
  flagSet u' = <[flagName := mkFlag v true]> (flagSet u)
  /\ lastIndex u' = ModifiedIndex (RNode resp)
  /\ calls u' = (calls u ++ [CallNext])%list
  /\ logger u'
     = (logger u ++ [LogUpdated flagName (Value (RNode resp))
                                (ModifiedIndex (RNode resp))])%list
  /\ snd (watchIteration watcher u) = Continue watcher'.
Proof.
  intros Hw Hnext Hname Hval Hflag Hdyn Hset u'. subst u'.
  rewrite (watchIteration_event watcher watcher' u resp st Hw Hnext), Hname.
  unfold setFlag. destruct (String.eqb_spec (Value (RNode resp)) "") as [|_]; [done|].
  simpl. rewrite Hflag, Hdyn, Hset. simpl. by repeat split.
Qed.

(** X4. A watched change is passed over, with one log line and nothing
else, when it carries no value or when it names a registered flag that
is not marked dynamic: the registry is as before, no call but the [Next]
is made, so nothing is rolled back, and the loop goes on.  The flag's
[Set] is not consulted. *)
Theorem change_without_value_or_for_static_flag_is_ignored
    (watcher watcher' : W) (u : Updater) (resp : Response) (st : S)
    (flagName : string) :
  watching u = true ->
  watcher_Next (context u) watcher (etcdKeys u) = (Ok resp, watcher', st) ->
  nodeToFlagName u (RNode resp) = Ok flagName ->
  Value (RNode resp) = ""
  \/ (exists flag, flagSet u !! flagName = Some flag /\ IsFlagDynamic flag = false) ->
  let u' := fst (watchIteration watcher u) in
  flagSet u' = flagSet u
  /\ calls u' = (calls u ++ [CallNext])%list
  /\ (exists line,
        logger u' = (logger u ++ [line])%list
        /\ (line = LogIgnoringAction (Action resp) flagName (ModifiedIndex (RNode resp))
            \/ line = LogIgnoringUpdate flagName (ModifiedIndex (RNode resp))
                                        errFlagNotDynamic))
  /\ snd (watchIteration watcher u) = Continue watcher'.
Proof.
  intros Hw Hnext Hname Hcase u'. subst u'.
  rewrite (watchIteration_event watcher watcher' u resp st Hw Hnext), Hname.
  unfold setFlag.
  destruct (String.eqb_spec (Value (RNode resp)) "") as [He|Hne].
  - simpl. repeat split; eauto.
  - destruct Hcase as [|(flag & Hflag & Hstatic)]; [done|].
    simpl. rewrite Hflag, Hstatic. simpl. repeat split; eauto.
Qed.

(** X5. An error of [Next] other than the compacted index changes
neither the registry nor the cursor and writes nothing to the store: the
pass makes the [Next] and the pause of its class (100 ms for a cluster
error, none for a deadline, about a second with jitter for anything
else), and the loop goes on with the same watcher.  Only
[context.Canceled] ends the loop, and it does so without a pause. *)
Theorem Next_errors_keep_flags_and_cursor
    (watcher watcher' : W) (u : Updater) (err : error) (st : S) :
  watching u = true ->
  watcher_Next (context u) watcher (etcdKeys u) = (Err err, watcher', st) ->
  ~ isCompacted err ->
  let u' := fst (watchIteration watcher u) in
  flagSet u' = flagSet u
  /\ lastIndex u' = lastIndex u
  /\ calls u' = (calls u ++ CallNext :: backoff err)%list
  /\ (err = Canceled -> snd (watchIteration watcher u) = Break)
  /\ (err <> Canceled -> snd (watchIteration watcher u) = Continue watcher').
Proof.
  intros Hw Hnext Hnot u'. subst u'. unfold watchIteration. rewrite Hw, Hnext. simpl.
  destruct err as [code m c i| | | | | |]; simpl; try (by repeat split).
  - destruct (Z.eqb_spec code ErrorCodeEventIndexCleared) as [->|Hne].
    + destruct Hnot. by do 3 eexists.
    + simpl. repeat split; try done. by rewrite <- (assoc_L (++)).
  - repeat split; try done. by rewrite <- (assoc_L (++)).
  - repeat split; try done. by rewrite <- (assoc_L (++)).
  - repeat split; try done. by rewrite <- (assoc_L (++)).
  - repeat split; try done. by rewrite <- (assoc_L (++)).
Qed.

(** X6. Every event that [Next] delivers moves the cursor to the
modified index of its node, whatever becomes of the event (applied,
ignored, refused or rolled back), and never ends the loop. *)
Theorem every_event_advances_the_cursor
    (watcher watcher' : W) (u : Updater) (resp : Response) (st : S) :
  watching u = true ->
  watcher_Next (context u) watcher (etcdKeys u) = (Ok resp, watcher', st) ->
  lastIndex (fst (watchIteration watcher u)) = ModifiedIndex (RNode resp)
  /\ snd (watchIteration watcher u) = Continue watcher'.
Proof.
  intros Hw Hnext.
  rewrite (watchIteration_event watcher watcher' u resp st Hw Hnext).
  destruct (nodeToFlagName u (RNode resp)) as [flagName|err]; [|done].
  pose proof (setFlag_frame flagName (Value (RNode resp)) true (received resp st u))
    as ((_ & _ & Hl & _) & _).
  destruct (setFlag _ _ _ _) as [u1 e]. simpl in Hl.
  destruct e as [e|]; [|done].
  destruct e; try done;
    (split; [|done]); cbn [fst];
    match goal with |- context [rollbackEtcdValue ?n ?r ?x] =>
      destruct (rollbackEtcdValue_kept n r x) as (_ & _ & ->) end; done.
Qed.

(** What every function keeps: the registered names with their dynamic
markers, the prefix and the context. *)
Lemma setFlag_keeps (flagName value : string) (onlyDynamic : bool) (u : Updater) :
  markers (fst (setFlag flagName value onlyDynamic u)) = markers u.
Proof.
  unfold markers.
  destruct (setFlag_cases flagName value onlyDynamic u)
    as [[_ ->]|[(_ & _ & ->)|[(_ & _ & _ & ->)|(_ & flag & Hl & _ & ->)]]]; try done.
  simpl. rewrite fmap_insert. simpl. apply insert_id. by rewrite lookup_fmap, Hl.
Qed.

Lemma readNodes_keeps (onlyDynamic : bool) (nodes : list Node) (errs : list string)
    (u : Updater) :
  markers (fst (readNodes onlyDynamic nodes errs u)) = markers u.
Proof.
  revert errs u. induction nodes as [|node rest IH]; intros errs u; [done|].
  rewrite readNodes_cons, IH.
  destruct (readNodes_one onlyDynamic node errs u) as (_ & _ & Hst).
  destruct (nodeToFlagName u node); rewrite Hst; [apply setFlag_keeps|done].
Qed.

Lemma readAllFlags_keeps (onlyDynamic : bool) (u : Updater) :
  markers (fst (readAllFlags onlyDynamic u)) = markers u
  /\ etcdPath (fst (readAllFlags onlyDynamic u)) = etcdPath u
  /\ context (fst (readAllFlags onlyDynamic u)) = context u
  /\ calls (fst (readAllFlags onlyDynamic u)) = (calls u ++ [CallGet (etcdPath u)])%list.
Proof.
  destruct (keys_Get (context u) (etcdPath u) (etcdKeys u)) as [[resp|err] st] eqn:Hget.
  - rewrite (readAllFlags_read onlyDynamic u resp st Hget). cbn [fst].
    match goal with |- context [readNodes onlyDynamic ?l [] ?x] =>
      pose proof (readNodes_frame onlyDynamic l [] x) as (_ & Hp & _ & _ & Hc & Hcs & _);
      pose proof (readNodes_keeps onlyDynamic l [] x) as Hm end.
    rewrite Hm, Hp, Hc, Hcs. by repeat split.
  - rewrite (readAllFlags_failed onlyDynamic u err st Hget). by repeat split.
Qed.

Lemma rollbackEtcdValue_keeps (flagName : string) (resp : Response) (u : Updater) :
  flagSet (rollbackEtcdValue flagName resp u) = flagSet u
  /\ etcdPath (rollbackEtcdValue flagName resp u) = etcdPath u
  /\ context (rollbackEtcdValue flagName resp u) = context u.
Proof.
  unfold rollbackEtcdValue.
  destruct (PrevNode resp) as [prev|];
    [destruct (keys_Set _ _ _ _ _) as [[e|] st']
    |destruct (keys_Delete _ _ _ _) as [[e|] st']];
    try done; destruct e as [code ? ? ?| | | | | |]; try done;
    by destruct (code =? ErrorCodeTestFailed)%Z.
Qed.

Lemma watchIteration_keeps (watcher : W) (u : Updater) :
  markers (fst (watchIteration watcher u)) = markers u
  /\ etcdPath (fst (watchIteration watcher u)) = etcdPath u
  /\ context (fst (watchIteration watcher u)) = context u.
Proof.
  destruct (watching u) eqn:Hw; [|by unfold watchIteration; rewrite Hw].
  destruct (watcher_Next (context u) watcher (etcdKeys u)) as [[r watcher'] st] eqn:Hnext.
  destruct r as [resp|err].
  - rewrite (watchIteration_event watcher watcher' u resp st Hw Hnext).
    destruct (nodeToFlagName u (RNode resp)) as [flagName|err]; [|done].
    pose proof (setFlag_frame flagName (Value (RNode resp)) true (received resp st u))
      as ((_ & Hp & _ & _ & Hc & _) & _).
    pose proof (setFlag_keeps flagName (Value (RNode resp)) true (received resp st u))
      as Hm.
    destruct (setFlag _ _ _ _) as [u1 e]. simpl in Hp, Hc, Hm.
    destruct e as [e|]; [|by repeat split].
    destruct e; try (by repeat split); cbn [fst]; unfold markers in *;
      match goal with |- context [rollbackEtcdValue ?n ?r ?x] =>
        destruct (rollbackEtcdValue_keeps n r x) as (-> & -> & ->) end;
      by repeat split.
  - unfold watchIteration. rewrite Hw, Hnext. simpl.
    destruct err as [code ? ? ?| | | | | |]; try (by repeat split).
    destruct (code =? ErrorCodeEventIndexCleared)%Z; [|by repeat split].
    set (u1 := Sleep 200 _).
    destruct (readAllFlags_keeps true u1) as (Hm & Hp & Hc & _).
    destruct (readAllFlags true u1) as [u2 e]. simpl in *. by repeat split.
Qed.

(** A flag that is not dynamic is not touched by [setFlag] restricted
to dynamic flags. *)
Lemma setFlag_static (flagName value name : string) (flag : Flag V) (u : Updater) :
  IsFlagDynamic flag = false ->
  flagSet u !! name = Some flag ->
  flagSet (fst (setFlag flagName value true u)) !! name = Some flag.
Proof.
  intros Hstatic Hflag.
  destruct (setFlag_cases flagName value true u)
    as [[_ ->]|[(_ & _ & ->)|[(_ & _ & _ & ->)|(_ & flag' & Hl & Hd & ->)]]]; try done.
  simpl. rewrite lookup_insert_ne; [done|].
  intros <-. rewrite Hflag in Hl. injection Hl as <-. by rewrite Hd in Hstatic.
Qed.

Lemma watchIteration_static (watcher : W) (u : Updater) (name : string)
    (flag : Flag V) :
  IsFlagDynamic flag = false ->
  flagSet u !! name = Some flag ->
  flagSet (fst (watchIteration watcher u)) !! name = Some flag.
Proof.
  intros Hstatic Hflag.
  destruct (watching u) eqn:Hw; [|by unfold watchIteration; rewrite Hw].
  destruct (watcher_Next (context u) watcher (etcdKeys u)) as [[r watcher'] st] eqn:Hnext.
  destruct r as [resp|err].
  - rewrite (watchIteration_event watcher watcher' u resp st Hw Hnext).
    destruct (nodeToFlagName u (RNode resp)) as [flagName|err]; [|done].
    pose proof (setFlag_static flagName (Value (RNode resp)) name flag
                  (received resp st u) Hstatic Hflag) as Hs.
    destruct (setFlag _ _ _ _) as [u1 e]. simpl in Hs.
    destruct e as [e|]; [|done].
    destruct e; try done; cbn [fst];
      match goal with |- context [rollbackEtcdValue ?n ?r ?x] =>
        destruct (rollbackEtcdValue_keeps n r x) as (-> & _) end; done.
  - unfold watchIteration. rewrite Hw, Hnext. simpl.
    destruct err as [code ? ? ?| | | | | |]; try done.
    destruct (code =? ErrorCodeEventIndexCleared)%Z; [|done].
    set (u1 := Sleep 200 _).
    pose proof (readAllFlags_static u1 name flag Hstatic Hflag) as Hs.
    by destruct (readAllFlags true u1) as [u2 e].
Qed.

Lemma schedule_keeps (i : nat) (u : Updater) :
  markers (schedule i u) = markers u
  /\ etcdPath (schedule i u) = etcdPath u
  /\ context (schedule i u) = context u.
Proof.
  unfold schedule. destruct (goroutines u !! i) as [[|watcher|]|]; try done.
  destruct (watchIteration_keeps watcher u) as (Hm & Hp & Hc).
  by destruct (watchIteration watcher u) as [u1 [watcher'|]].
Qed.

Lemma schedule_static (i : nat) (u : Updater) (name : string) (flag : Flag V) :
  IsFlagDynamic flag = false ->
  flagSet u !! name = Some flag ->
  flagSet (schedule i u) !! name = Some flag.
Proof.
  intros Hstatic Hflag. unfold schedule.
  destruct (goroutines u !! i) as [[|watcher|]|]; try done.
  pose proof (watchIteration_static watcher u name flag Hstatic Hflag) as Hs.
  by destruct (watchIteration watcher u) as [u1 [watcher'|]].
Qed.

(** X9. No operation of the updater registers a flag, removes one or
changes whether a flag is dynamic, and none changes the prefix: after
any sequence of [Initialize], [Start], [Stop] and passes of the
goroutines, the registered names with their dynamic markers and the
prefix are what they were. *)
Theorem operations_keep_names_markers_and_prefix (ops : list Op) (u : Updater) :
  markers (performAll ops u) = markers u
  /\ dom (flagSet (performAll ops u)) = dom (flagSet u)
  /\ etcdPath (performAll ops u) = etcdPath u.
Proof.
  assert (Hone : forall o x, markers (fst (perform o x)) = markers x
                             /\ etcdPath (fst (perform o x)) = etcdPath x).
  { intros o x. destruct o as [| | |i]; simpl.
    - unfold Initialize. destruct (negb _); [done|].
      by destruct (readAllFlags_keeps false x) as (-> & -> & _).
    - unfold Start. destruct (_ =? _)%N; [done|]. by destruct (watching x).
    - unfold Stop. by destruct (negb _).
    - by destruct (schedule_keeps i x) as (-> & -> & _). }
  assert (Hall : markers (performAll ops u) = markers u
                 /\ etcdPath (performAll ops u) = etcdPath u).
  { revert u. induction ops as [|o ops IH]; intros u; [done|].
    unfold performAll. simpl. fold (performAll ops (fst (perform o u))).
    destruct (IH (fst (perform o u))) as [-> ->]. apply Hone. }
  destruct Hall as [Hm Hp]. repeat split; [done| |done].
  unfold markers in Hm.
  rewrite <- (dom_fmap_L IsFlagDynamic (flagSet (performAll ops u))), Hm.
  apply dom_fmap_L.
Qed.

(** X8. Once the flags are loaded, a flag that is not marked dynamic is
never changed again: [Start], [Stop] and every pass of the goroutines,
in any order and whatever the store delivers, leave it in the registry
exactly as it was. *)
Theorem static_flags_are_never_changed_at_run_time
    (ops : list Op) (u : Updater) (name : string) (flag : Flag V) :
  OpInitialize ∉ ops ->
  flagSet u !! name = Some flag ->
  IsFlagDynamic flag = false ->
  flagSet (performAll ops u) !! name = Some flag.
Proof.
  intros Hno Hflag Hstatic. revert u Hflag.
  induction ops as [|o ops IH]; intros u Hflag; [done|].
  unfold performAll. simpl. fold (performAll ops (fst (perform o u))).
  apply IH; [set_solver|].
  destruct o as [| | |i]; simpl.
  - set_solver.
  - unfold Start. destruct (_ =? _)%N; [done|]. by destruct (watching u).
  - unfold Stop. by destruct (negb _).
  - by apply schedule_static.
Qed.

(** The calls of one pass of the loop: nothing is written to the store
unless an event was received, and then only its rollback. *)
Lemma watchIteration_calls (watcher : W) (u : Updater) :
  exists cs,
    calls (fst (watchIteration watcher u)) = (calls u ++ cs)%list
    /\ (filter (fun c => isRollback c = true) cs = []
        \/ exists resp watcher' st,
            watcher_Next (context u) watcher (etcdKeys u) = (Ok resp, watcher', st)
            /\ filter (fun c => isRollback c = true) cs = [rollbackCall resp]).
Proof.
  destruct (watching u) eqn:Hw.
  2: { exists []. unfold watchIteration. rewrite Hw. simpl. rewrite app_nil_r. auto. }
  destruct (watcher_Next (context u) watcher (etcdKeys u)) as [[r watcher'] st] eqn:Hnext.
  destruct r as [resp|err].
  - rewrite (watchIteration_event watcher watcher' u resp st Hw Hnext).
    destruct (nodeToFlagName u (RNode resp)) as [flagName|err];
      [|exists [CallNext]; auto].
    pose proof (setFlag_frame flagName (Value (RNode resp)) true (received resp st u))
      as ((_ & _ & Hl & _ & _ & Hc & _) & _).
    destruct (setFlag _ _ _ _) as [u1 e]. simpl in Hl, Hc.
    assert (Hquiet : forall m, exists cs,
               calls (Printf m u1) = (calls u ++ cs)%list
               /\ (filter (fun c => isRollback c = true) cs = []
                   \/ exists resp0 watcher0 st0,
                       (Ok resp, watcher', st) = (Ok resp0, watcher0, st0)
                       /\ filter (fun c => isRollback c = true) cs
                          = [rollbackCall resp0]))
      by (intros m; exists [CallNext]; simpl; rewrite Hc; auto).
    assert (Hroll : forall m, exists cs,
               calls (rollbackEtcdValue flagName resp (Printf m u1))
               = (calls u ++ cs)%list
               /\ (filter (fun c => isRollback c = true) cs = []
                   \/ exists resp0 watcher0 st0,
                       (Ok resp, watcher', st) = (Ok resp0, watcher0, st0)
                       /\ filter (fun c => isRollback c = true) cs
                          = [rollbackCall resp0])).
    { intros m. exists [CallNext; rollbackCall resp].
      destruct (rollbackEtcdValue_once flagName resp (Printf m u1)) as (-> & _);
        [done|]. simpl. rewrite Hc. simpl. rewrite <- (assoc_L (++)). split; [done|].
      right. exists resp, watcher', st. split; [done|].
      unfold rollbackCall. by destruct (PrevNode resp). }
    destruct e as [e|]; [|apply Hquiet].
    destruct e; cbn [fst]; first [apply Hquiet|apply Hroll].
  - unfold watchIteration. rewrite Hw, Hnext. simpl.
    destruct err as [code ? ? ?| | | | | |];
      try (eexists; simpl; rewrite <- ?(assoc_L (++)); split; [reflexivity|]; by left).
    destruct (code =? ErrorCodeEventIndexCleared)%Z;
      [|eexists; simpl; rewrite <- ?(assoc_L (++)); split; [reflexivity|]; by left].
    set (u1 := Sleep 200 _).
    destruct (readAllFlags_keeps true u1) as (_ & _ & _ & Hc).
    destruct (readAllFlags true u1) as [u2 e]. simpl in *.
    exists [CallNext; CallSleep 200; CallGet (etcdPath u);
            CallWatcher (etcdPath u2) (lastIndex u2)].
    rewrite Hc. split; [by rewrite <- !(assoc_L (++))|by left].
Qed.

(** X7. The updater writes to the store only to roll back the event it
has just received.  Whatever operation runs, the calls it adds contain
no [Set] and no [Delete], except that a pass of a goroutine which
received an event may add one: the rollback of that event, on the key of
the event and conditioned on its modified index. *)
Theorem store_is_written_only_to_roll_back (o : Op) (u : Updater) :
  exists cs,
    calls (fst (perform o u)) = (calls u ++ cs)%list
    /\ (filter (fun c => isRollback c = true) cs = []
        \/ exists i watcher resp watcher' st,
            o = OpSchedule i
            /\ goroutines u !! i = Some (Looping watcher)
            /\ watcher_Next (context u) watcher (etcdKeys u) = (Ok resp, watcher', st)
            /\ filter (fun c => isRollback c = true) cs = [rollbackCall resp]).
Proof.
  destruct o as [| | |i]; simpl.
  - unfold Initialize. destruct (negb _).
    + exists []. simpl. rewrite app_nil_r. auto.
    + destruct (readAllFlags_keeps false u) as (_ & _ & _ & ->). eexists. auto.
  - exists []. rewrite app_nil_r. split; [|auto].
    unfold Start. destruct (_ =? _)%N; [done|]. by destruct (watching u).
  - exists []. rewrite app_nil_r. split; [|auto].
    unfold Stop. by destruct (negb _).
  - unfold schedule. destruct (goroutines u !! i) as [[|watcher|]|] eqn:Hg.
    + eexists. simpl. split; [reflexivity|by left].
    + destruct (watchIteration_calls watcher u) as (cs & Hc & Hcs).
      exists cs. split.
      * by destruct (watchIteration watcher u) as [u1 [watcher'|]].
      * destruct Hcs as [|(resp & watcher' & st & Hn & Hf)]; [by left|].
        right. by exists i, watcher, resp, watcher', st.
    + exists []. rewrite app_nil_r. auto.
    + exists []. rewrite app_nil_r. auto.
Qed.

(** X10. When the re-read after a compacted index fails, the pass
changes neither the registry nor the cursor: the watcher is opened again
after the old cursor and the loop goes on, so the next [Next] decides
what happens. *)
Theorem failed_recovery_read_keeps_the_cursor
    (watcher watcher' : W) (u : Updater) (st st' : S) (compacted err : error) :
  watching u = true ->
  watcher_Next (context u) watcher (etcdKeys u) = (Err compacted, watcher', st) ->
  isCompacted compacted ->
  keys_Get (context u) (etcdPath u) st = (Err err, st') ->
  let u' := fst (watchIteration watcher u) in
  flagSet u' = flagSet u
  /\ lastIndex u' = lastIndex u
  /\ etcdKeys u' = st'
  /\ calls u'
     = (calls u ++ [CallNext; CallSleep 200; CallGet (etcdPath u);
                    CallWatcher (etcdPath u) (lastIndex u)])%list
  /\ snd (watchIteration watcher u)
     = Continue (keys_Watcher (etcdPath u) (lastIndex u)).
Proof.
  intros Hw Hnext (message & cause & index & ->) Hget u'. subst u'.
  rewrite (watchIteration_recovery watcher watcher' u st message cause index Hw Hnext).
  cbv zeta. set (u1 := Sleep 200 _).
  rewrite (readAllFlags_failed true u1 err st' Hget). simpl.
  repeat split. by rewrite <- !(assoc_L (++)).
Qed.

(** X14. An [Initialize] whose read fails returns the error of the
store and leaves the updater uninitialized, with its flags untouched:
[Start] is still refused, and a further [Initialize] is not refused but
reads again. *)
Theorem failed_Initialize_can_be_retried (u : Updater) (err : error) (st : S) :
  lastIndex u = 0%N ->
  keys_Get (context u) (etcdPath u) (etcdKeys u) = (Err err, st) ->
  let u1 := fst (Initialize u) in
  snd (Initialize u) = Some err
  /\ flagSet u1 = flagSet u
  /\ lastIndex u1 = 0%N
  /\ calls u1 = (calls u ++ [CallGet (etcdPath u)])%list
  /\ Start u1 = (u1, Some errNotInitialized)
  /\ Initialize u1 = readAllFlags false u1
  /\ calls (fst (Initialize u1))
     = (calls u ++ [CallGet (etcdPath u); CallGet (etcdPath u)])%list.
Proof.
  intros Hfresh Hget u1.
  assert (Hinit : Initialize u
                  = (with_etcdKeys st (called (CallGet (etcdPath u)) u), Some err)).
  { unfold Initialize. rewrite Hfresh. simpl. by apply readAllFlags_failed. }
  subst u1. rewrite Hinit. cbn [fst snd].
  set (u1 := with_etcdKeys st _).
  assert (H1 : lastIndex u1 = 0%N) by done.
  repeat split; try done.
  - unfold Start. by rewrite H1.
  - unfold Initialize. by rewrite H1.
  - unfold Initialize. rewrite H1. simpl.
    destruct (readAllFlags_keeps false u1) as (_ & _ & _ & ->).
    simpl. by rewrite <- (assoc_L (++)).
Qed.

(** X11. Start-up.  After an [Initialize] whose read succeeded with a
non-zero index, [Start] succeeds, whether or not [Initialize] returned
the aggregate error: it sets [watching] and launches one goroutine, and
when that goroutine first runs it opens its watcher after the index of
the snapshot.  Between the read and the watcher no call is made. *)
Theorem watch_starts_after_the_snapshot_index (u : Updater) (resp : Response) (st : S) :
  lastIndex u = 0%N ->
  watching u = false ->
  keys_Get (context u) (etcdPath u) (etcdKeys u) = (Ok resp, st) ->
  Index resp <> 0%N ->
  let u1 := fst (Initialize u) in
  let u2 := fst (Start u1) in
  let u3 := schedule (length (goroutines u)) u2 in
  lastIndex u1 = Index resp
  /\ snd (Start u1) = None
  /\ watching u2 = true
  /\ goroutines u2 = (goroutines u ++ [Launched])%list
  /\ flagSet u3 = flagSet u1
  /\ goroutines u3
     = (goroutines u ++ [Looping (keys_Watcher (etcdPath u) (Index resp))])%list
  /\ calls u3
     = (calls u ++ [CallGet (etcdPath u);
                    CallWatcher (etcdPath u) (Index resp)])%list.
Proof.
  intros Hfresh Hnw Hget Hidx u1 u2 u3.
  assert (Hu1 : u1 = fst (readNodes false (Nodes (RNode resp)) []
                            (with_lastIndex (Index resp)
                               (with_etcdKeys st (called (CallGet (etcdPath u)) u)))))
    by (subst u1; by rewrite (Initialize_read u resp st Hfresh Hget)).
  match type of Hu1 with _ = fst (readNodes false ?l [] ?x) =>
    pose proof (readNodes_frame false l [] x) as (_ & Hp & Hl & Hw & _ & Hc & Hg) end.
  rewrite <- Hu1 in Hp, Hl, Hw, Hc, Hg. simpl in Hp, Hl, Hw, Hc, Hg.
  assert (Hstart : Start u1
                   = (with_goroutines (goroutines u1 ++ [Launched])%list
                        (with_watching true u1), None)).
  { unfold Start. rewrite Hl, Hw, Hnw. by destruct (N.eqb_spec (Index resp) 0). }
  subst u3 u2. clearbody u1. rewrite Hstart. cbn [fst snd].
  unfold schedule. cbn [goroutines with_goroutines with_watching].
  rewrite Hg, list_lookup_middle by done.
  simpl. rewrite ?Hp, ?Hl, ?Hc, ?Hg.
  repeat split.
  - rewrite insert_app_r_alt by done. by rewrite Nat.sub_diag.
  - by rewrite <- (assoc_L (++)).
Qed.

(** Nothing takes a cancellation back. *)
Lemma perform_stays_cancelled (o : Op) (u : Updater) :
  cancelled (context u) = true -> cancelled (context (fst (perform o u))) = true.
Proof.
  intros Hc. destruct o as [| | |i]; simpl.
  - unfold Initialize. destruct (negb _); [done|].
    by destruct (readAllFlags_keeps false u) as (_ & _ & -> & _).
  - unfold Start. destruct (_ =? _)%N; [done|]. by destruct (watching u).
  - unfold Stop. by destruct (negb _).
  - by destruct (schedule_keeps i u) as (_ & _ & ->).
Qed.

(** X12. [Stop] ends the loop at its next pass.  On a store whose
[Next] returns [context.Canceled] under a cancelled context, the pass
that follows a [Stop] makes that one [Next], writes nothing, leaves flags
and cursor as they were and returns; the goroutine does nothing after
that.  The cancellation is never taken back by any later operation. *)
Theorem Stop_ends_the_loop_at_its_next_pass
    (u : Updater) (i : nat) (watcher : W) (ops : list Op) :
  honoursCancel ->
  watching u = true ->
  goroutines u !! i = Some (Looping watcher) ->
  let u1 := fst (Stop u) in
  let u2 := schedule i u1 in
  snd (Stop u) = None
  /\ goroutines u2 = <[i := Returned]> (goroutines u)
  /\ flagSet u2 = flagSet u
  /\ lastIndex u2 = lastIndex u
  /\ calls u2 = (calls u ++ [CallNext])%list
  /\ logger u2 = (logger u ++ [LogStopping; LogWatcherExited])%list
  /\ schedule i u2 = u2
  /\ cancelled (context (performAll ops u1)) = true.
Proof.
  intros Hcancel Hw Hg u1 u2.
  assert (Hstop : Stop u = (with_context (mkContext true) (Printf LogStopping u), None))
    by (unfold Stop; by rewrite Hw).
  subst u2 u1. rewrite Hstop. cbn [fst snd].
  set (u1 := with_context _ _).
  destruct (Hcancel watcher (etcdKeys u)) as (watcher' & st & Hnext).
  assert (Hpass : watchIteration watcher u1 = (with_etcdKeys st (called CallNext u1), Break)).
  { unfold watchIteration. cbn [watching u1 with_context Printf context etcdKeys].
    by rewrite Hw, Hnext. }
  assert (Hsched : schedule i u1
                   = with_goroutines (<[i := Returned]> (goroutines u))
                       (watchLeave (with_etcdKeys st (called CallNext u1)))).
  { unfold schedule. cbn [goroutines u1 with_context Printf]. by rewrite Hg, Hpass. }
  rewrite Hsched. simpl. repeat split.
  - by rewrite <- (assoc_L (++)).
  - unfold schedule. cbn [goroutines with_goroutines].
    rewrite list_lookup_insert_eq; [done|]. by eapply lookup_lt_Some.
  - assert (Hall : forall x : Updater, cancelled (context x) = true ->
               cancelled (context (performAll ops x)) = true).
    { induction ops as [|o ops IH]; intros x Hx; [done|].
      unfold performAll. simpl. fold (performAll ops (fst (perform o x))).
      apply IH. by apply perform_stays_cancelled. }
    by apply Hall.
Qed.

End More.

(** *** The statements on the scripted and the steady store *)

Import Fixture FixtureMore.

Lemma aggregate_error_mentions_every_failure_witness :
  exists e, snd (Initialize (fresh [])) = Some e
            /\ mentions (Error e) "flag=unknown was not found".
Proof.
  exact (aggregate_error_mentions_every_failure
           (fresh []) snapshotUnknown (mkScript (Ok snapshotUnknown) [] None)
           1%nat (leaf "/config/unknown" "1" 5) "flag=unknown was not found"
           eq_refl eq_refl eq_refl eq_refl).
Defined.

Lemma accepted_change_is_applied_witness :
  flagSet (fst (watchIteration 5%N (watchingOn [Ok eventGood]))) !! "a"
  = Some (mkFlag "6" true)
  /\ lastIndex (fst (watchIteration 5%N (watchingOn [Ok eventGood]))) = 12%N.
Proof.
  pose proof (accepted_change_is_applied
                5%N 13%N (watchingOn [Ok eventGood]) eventGood
                (mkScript (Ok snapshotUnknown) [] None) "a" (mkFlag "5" true) "6"
                eq_refl eq_refl eq_refl ltac:(discriminate) eq_refl eq_refl eq_refl)
    as (H1 & H2 & _).
  split; [|exact H2]. rewrite H1. apply lookup_insert_eq.
Defined.

Lemma change_without_value_or_for_static_flag_is_ignored_witness :
  flagSet (fst (watchIteration 5%N (watchingOn [Ok eventStatic])))
  = flagSet (watchingOn [Ok eventStatic])
  /\ calls (fst (watchIteration 5%N (watchingOn [Ok eventStatic])))
     = (calls (watchingOn [Ok eventStatic]) ++ [CallNext])%list.
Proof.
  pose proof (change_without_value_or_for_static_flag_is_ignored
                5%N 14%N (watchingOn [Ok eventStatic]) eventStatic
                (mkScript (Ok snapshotUnknown) [] None) "static"
                eq_refl eq_refl eq_refl
                (or_intror (ex_intro _ (mkFlag "7" false) (conj eq_refl eq_refl))))
    as (H1 & H2 & _).
  exact (conj H1 H2).
Defined.

Lemma Next_errors_keep_flags_and_cursor_witness :
  lastIndex (fst (watchIteration 5%N
                    (watchingOn [Err (ClusterError "no endpoints available")]))) = 5%N
  /\ calls (fst (watchIteration 5%N
                   (watchingOn [Err (ClusterError "no endpoints available")])))
     = [CallGet "/config/"; CallNext; CallSleep 100].
Proof.
  pose proof (Next_errors_keep_flags_and_cursor
                5%N 5%N (watchingOn [Err (ClusterError "no endpoints available")])
                (ClusterError "no endpoints available")
                (mkScript (Ok snapshotUnknown) [] None) eq_refl eq_refl
                ltac:(intros (? & ? & ? & ?); discriminate))
    as (_ & H2 & H3 & _).
  exact (conj H2 H3).
Defined.

Lemma every_event_advances_the_cursor_witness :
  lastIndex (fst (watchIteration 5%N (watchingOn [Ok eventBogus]))) = 9%N
  /\ snd (watchIteration 5%N (watchingOn [Ok eventBogus])) = Continue 10%N.
Proof.
  exact (every_event_advances_the_cursor
           5%N 10%N (watchingOn [Ok eventBogus]) eventBogus
           (mkScript (Ok snapshotUnknown) [] None) eq_refl eq_refl).
Defined.

Lemma static_flags_are_never_changed_at_run_time_witness :
  flagSet (performAll [OpStart; OpSchedule 0; OpSchedule 0; OpStop; OpSchedule 0]
             (fst (Initialize (fresh [Ok eventStatic])))) !! "static"
  = Some (mkFlag "7" false).
Proof.
  refine (static_flags_are_never_changed_at_run_time
            [OpStart; OpSchedule 0; OpSchedule 0; OpStop; OpSchedule 0]
            (fst (Initialize (fresh [Ok eventStatic]))) "static" (mkFlag "7" false)
            _ eq_refl eq_refl).
  intros Hin. repeat (apply elem_of_cons in Hin as [Hin|Hin]; [discriminate|]).
  by apply elem_of_nil in Hin.
Defined.

Lemma failed_recovery_read_keeps_the_cursor_witness :
  lastIndex (fst (watchIteration 5%N compactedAndDown)) = 5%N
  /\ snd (watchIteration 5%N compactedAndDown) = Continue 5%N.
Proof.
  pose proof (failed_recovery_read_keeps_the_cursor
                5%N 5%N compactedAndDown
                (mkScript (Err (ClusterError "connection refused")) [] None)
                (mkScript (Err (ClusterError "connection refused")) [] None)
                errCompacted (ClusterError "connection refused")
                eq_refl eq_refl
                (ex_intro _ _ (ex_intro _ _ (ex_intro _ _ eq_refl))) eq_refl)
    as (_ & H2 & _ & _ & H5).
  exact (conj H2 H5).
Defined.

Lemma failed_Initialize_can_be_retried_witness :
  snd (Initialize unreachable) = Some (ClusterError "connection refused")
  /\ Start (fst (Initialize unreachable))
     = (fst (Initialize unreachable), Some errNotInitialized).
Proof.
  pose proof (failed_Initialize_can_be_retried
                unreachable (ClusterError "connection refused")
                (mkScript (Err (ClusterError "connection refused")) [] None)
                eq_refl eq_refl) as (H1 & _ & _ & _ & H5 & _).
  exact (conj H1 H5).
Defined.

Lemma watch_starts_after_the_snapshot_index_witness :
  calls (schedule 0 (fst (Start (fst (Initialize (fresh []))))))
  = [CallGet "/config/"; CallWatcher "/config/" 5]
  /\ goroutines (schedule 0 (fst (Start (fst (Initialize (fresh []))))))
     = [Looping 5%N].
Proof.
  pose proof (watch_starts_after_the_snapshot_index
                (fresh []) snapshotUnknown (mkScript (Ok snapshotUnknown) [] None)
                eq_refl eq_refl eq_refl ltac:(discriminate))
    as (_ & _ & _ & _ & _ & H6 & H7).
  exact (conj H7 H6).
Defined.

Lemma steady_honoursCancel : @honoursCancel unit unit steady.
Proof. intros w st. by exists w, st. Qed.

Lemma Stop_ends_the_loop_at_its_next_pass_witness :
  goroutines (schedule 0 (fst (Stop loopingSteady))) = [Returned]
  /\ calls (schedule 0 (fst (Stop loopingSteady)))
     = (calls loopingSteady ++ [CallNext])%list.
Proof.
  pose proof (Stop_ends_the_loop_at_its_next_pass
                loopingSteady 0%nat tt [] steady_honoursCancel eq_refl eq_refl)
    as (_ & H2 & _ & _ & H5 & _).
  exact (conj H2 H5).
Defined.

End UpdaterMore.

(** ** The dynamic value: publication and what readers can rely on *)

Module DynProto3More.
Import Protoflagz DynProto3Spec DynProto3Terms DynProto3Facts.

Section More.

Context {T Nf : Type} `{!Proto3 T}.

#[local] Abbreviation DynProto3Value := (DynProto3Value T Nf).

(** [Set], by the result of the chosen parser and of the validator. *)
Lemma Set_cases (input : string) (d : DynProto3Value) :
  let p := length (heap d) in
  let m := fst (chosenParser input) in
  let filled := (<[p := m]> (heap d ++ [zeroStruct]))%list in
  let d1 := mkDyn filled (ptr d) (validator d) (notifier d) (notified d) in
  let verdict := match validator d with Some check => check m | None => None end in
  Set_ input d
  = match snd (chosenParser input) with
    | Some err => (d1, Some err)
    | None =>
        match verdict with
        | Some err => (d1, Some err)
        | None =>
            (mkDyn filled p (validator d) (notifier d)
                   (notified d
                    ++ match notifier d with
                       | Some f => [(f, ptr d, p)]
                       | None => []
                       end)%list,
             None)
        end
    end.
Proof.
  intros p m filled d1 verdict. rewrite Set_unfold. cbv zeta.
  fold (chosenParser input). fold p m filled d1.
  destruct (snd (chosenParser input)); [done|].
  assert (Hload : load d1 p = m) by apply load_fresh.
  assert (Hv : match validator d with Some check => check (load d1 p) | None => None end
               = verdict)
    by (subst verdict; destruct (validator d); [by rewrite Hload|done]).
  rewrite Hv. destruct verdict; [done|].
  destruct (notifier d); simpl; [done|by rewrite app_nil_r].
Qed.

(** X15. A [Set] that succeeds publishes a fresh struct: [Get] returns
an address that was not allocated before, so it differs from the old
pointer, the struct behind it is what the chosen parser produced, and
every struct allocated before, the previously current one included, is
unchanged.  When a notifier is installed exactly one goroutine is
launched, with the old and the new pointer; without one, none. *)
Theorem successful_Set_publishes_a_fresh_struct (input : string) (d : DynProto3Value) :
  snd (Set_ input d) = None ->
  let d' := fst (Set_ input d) in
  Get d' = length (heap d)
  /\ (valid d -> Get d' <> Get d)
  /\ load d' (Get d') = fst (chosenParser input)
  /\ (forall p, p < length (heap d) -> load d' p = load d p)
  /\ notified d'
     = (notified d
        ++ match notifier d with Some f => [(f, Get d, Get d')] | None => [] end)%list
  /\ validator d' = validator d
  /\ notifier d' = notifier d.
Proof.
  intros Hok d'. subst d'. revert Hok. rewrite Set_cases. cbv zeta.
  destruct (snd (chosenParser input)); [done|].
  destruct (match validator d with Some check => _ | None => None end); [done|].
  intros _. cbn [fst]. unfold Get. cbn [ptr notified validator notifier].
  repeat split.
  - unfold valid. lia.
  - apply load_fresh.
  - intros p Hp. by apply load_old.
Qed.

(** X16. [Set] succeeds exactly when the chosen parser succeeds and the
validator, if one is installed, accepts what was parsed; when the parser
succeeds and the validator refuses, the error of [Set] is the
validator's. *)
Theorem Set_succeeds_iff_parsed_and_accepted (input : string) (d : DynProto3Value) :
  (snd (Set_ input d) = None
   <-> snd (chosenParser input) = None
       /\ forall check, validator d = Some check ->
                        check (fst (chosenParser input)) = None)
  /\ (forall check err,
        snd (chosenParser input) = None ->
        validator d = Some check ->
        check (fst (chosenParser input)) = Some err ->
        snd (Set_ input d) = Some err).
Proof.
  rewrite Set_cases. cbv zeta.
  destruct (snd (chosenParser input)) as [e|].
  - split; [|done]. split; [done|]. by intros [? _].
  - destruct (validator d) as [check|].
    + destruct (check (fst (chosenParser input))) as [e|] eqn:Hc.
      * split; [|by intros ? ? _ [= <-]; rewrite Hc].
        split; [done|]. intros [_ H]. by rewrite (H check eq_refl) in Hc.
      * split; [|by intros ? ? _ [= <-]; rewrite Hc].
        split; [|done]. intros _. split; [done|]. by intros ? [= <-].
    + split; [|done]. split; [|done]. by intros _.
Qed.

(** One step keeps the pointer inside the heap, adds a struct exactly
when it is a [Set], and writes to no struct allocated before. *)
Lemma step_keeps (a : Step) (d : DynProto3Value) :
  valid d ->
  valid (step a d)
  /\ length (heap (step a d)) = length (heap d) + (if isSet a then 1 else 0)
  /\ (forall p, p < length (heap d) -> load (step a d) p = load d p).
Proof.
  intros Hv. destruct a as [input|check|f]; simpl; [|by rewrite Nat.add_0_r..].
  split; [by apply Set_valid|].
  rewrite Set_cases. cbv zeta.
  assert (Hlen : length (<[length (heap d) := fst (chosenParser input)]>
                           (heap d ++ [zeroStruct])%list) = length (heap d) + 1)
    by (rewrite length_insert, length_app; simpl; lia).
  destruct (snd (chosenParser input));
    [|destruct (match validator d with Some check => _ | None => None end)];
    cbn [fst heap]; (split; [exact Hlen|]); intros p Hp; by apply load_old.
Qed.

(** Installing hooks touches neither the pointer nor the heap. *)
Lemma run_hooks_only (steps : list Step) (d : DynProto3Value) :
  setsIn steps = 0 -> Get (run steps d) = Get d /\ heap (run steps d) = heap d.
Proof.
  revert d. induction steps as [|a steps IH]; intros d Hno; [done|].
  change (run (a :: steps) d) with (run steps (step a d)).
  destruct a as [input|check|f]; [done| |].
  - by destruct (IH (step (StepWithValidator check) d) Hno) as [-> ->].
  - by destruct (IH (step (StepWithNotifier f) d) Hno) as [-> ->].
Qed.

(** X17. What a reader of a dynamic value can rely on.  Through any
sequence of [Set], [WithValidator] and [WithNotifier] calls, the pointer
stays an address of the heap, every call of [Set], failed or not,
allocates exactly one struct, and no struct that was allocated before is
ever written again: a message once obtained from [Get] reads the same
for ever.  Installing hooks alone changes neither the pointer nor any
struct. *)
Theorem published_structs_are_never_modified (steps : list Step) (d : DynProto3Value) :
  valid d ->
  let d' := run steps d in
  valid d'
  /\ length (heap d') = length (heap d) + setsIn steps
  /\ (forall p, p < length (heap d) -> load d' p = load d p)
  /\ load d' (Get d) = load d (Get d)
  /\ (setsIn steps = 0 -> Get d' = Get d /\ heap d' = heap d).
Proof.
  intros Hv d'. subst d'.
  assert (Hmain : valid (run steps d)
                  /\ length (heap (run steps d)) = length (heap d) + setsIn steps
                  /\ (forall p, p < length (heap d) -> load (run steps d) p = load d p)).
  { revert d Hv. induction steps as [|a steps IH]; intros d Hv.
    - unfold setsIn. simpl. by rewrite Nat.add_0_r.
    - destruct (step_keeps a d Hv) as (Hv1 & Hl1 & Hs1).
      destruct (IH (step a d) Hv1) as (Hv2 & Hl2 & Hs2).
      change (run (a :: steps) d) with (run steps (step a d)).
      repeat split; [done| |].
      + rewrite Hl2, Hl1. unfold setsIn. simpl. destruct (isSet a); simpl; lia.
      + intros p Hp. rewrite Hs2 by lia. by apply Hs1. }
  destruct Hmain as (H1 & H2 & H3). repeat split; try done.
  - by apply H3.
  - by apply run_hooks_only.
  - by apply run_hooks_only.
Qed.

(** X18. A [Set] that fails does not change what the value shows:
[String] and [PrettyString] return afterwards what they returned
before. *)
Theorem failed_Set_keeps_the_shown_text (input : string) (d : DynProto3Value)
    (err : error) :
  valid d ->
  snd (Set_ input d) = Some err ->
  String_ (fst (Set_ input d)) = String_ d
  /\ PrettyString (fst (Set_ input d)) = PrettyString d.
Proof.
  intros Hv. rewrite Set_cases. cbv zeta.
  assert (Hsame : forall l,
            load (mkDyn (<[length (heap d) := fst (chosenParser input)]>
                           (heap d ++ [zeroStruct])%list)
                        (ptr d) (validator d) (notifier d) l) (ptr d)
            = load d (ptr d))
    by (intros l; by apply load_old).
  destruct (snd (chosenParser input));
    [|destruct (match validator d with Some check => _ | None => None end);
      [|done]];
    intros _; unfold String_, PrettyString, Get; cbn [fst ptr]; by rewrite Hsame.
Qed.

End More.

(** *** The statements on the toggle message *)

Import Toggle.

Lemma successful_Set_publishes_a_fresh_struct_witness :
  Get (fst (Set_ jsonTrue (WithNotifier tt (DynProto3 false)))) = 1
  /\ load (fst (Set_ jsonTrue (WithNotifier tt (DynProto3 false)))) 0 = false
  /\ notified (fst (Set_ jsonTrue (WithNotifier tt (DynProto3 false)))) = [(tt, 0, 1)].
Proof.
  pose proof (successful_Set_publishes_a_fresh_struct
                jsonTrue (WithNotifier tt (DynProto3 false)) eq_refl)
    as (H1 & _ & _ & H4 & H5 & _).
  assert (Hlt : 0 < 1) by lia.
  exact (conj H1 (conj (H4 0 Hlt) H5)).
Defined.

Lemma published_structs_are_never_modified_witness :
  load (run [StepSet jsonTrue; StepWithValidator mustBeEnabled; StepSet "{}";
             StepSet wireFalse; StepSet wireTrue]
            (DynProto3 (Nf := unit) false)) 1 = true
  /\ length (heap (run [StepSet jsonTrue; StepWithValidator mustBeEnabled; StepSet "{}";
                        StepSet wireFalse; StepSet wireTrue]
                       (DynProto3 (Nf := unit) false))) = 5.
Proof.
  pose proof (published_structs_are_never_modified
                [StepWithValidator mustBeEnabled; StepSet "{}";
                 StepSet wireFalse; StepSet wireTrue]
                (fst (Set_ jsonTrue (DynProto3 (Nf := unit) false)))
                (le_n 2))
    as (_ & H2 & H3 & _).
  assert (Hlt : 1 < 2) by lia.
  exact (conj (H3 1 Hlt) H2).
Defined.

Lemma failed_Set_keeps_the_shown_text_witness :
  String_ (fst (Set_ "{}" (WithValidator (Nf := unit) mustBeEnabled (DynProto3 true))))
  = jsonTrue
  /\ PrettyString
       (fst (Set_ "{}" (WithValidator (Nf := unit) mustBeEnabled (DynProto3 true))))
     = jsonTrue.
Proof.
  exact (failed_Set_keeps_the_shown_text
           "{}" (WithValidator (Nf := unit) mustBeEnabled (DynProto3 true))
           "must be enabled" (le_n 1) eq_refl).
Defined.

End DynProto3More.

(** ** A dynamic value under the updater *)

Module DynFlagFacts.
Import Etcd UpdaterSpec UpdaterFacts.
Import Protoflagz DynProto3Spec DynProto3Terms DynProto3Facts DynProto3More.
Import DynFlag.

Section Facts.

Context {T Nf S W : Type} `{!Proto3 T} `{!KeysAPI S W}.

#[local] Abbreviation Updater := (Updater (DynProto3Value T Nf) S W).

(** X19. A text that a dynamic value refuses never becomes visible
through it.  When a watched change names a flag backed by a dynamic
value and the value's [Set] refuses the text (the parser fails or the
validator rejects), the flag still returns the same pointer from [Get]
with the same struct behind it, no notifier is launched, and the change
is rolled back in the store by one conditioned call. *)
Theorem refused_text_never_reaches_Get
    (watcher watcher' : W) (u : Updater) (resp : Response) (st : S)
    (flagName : string) (d : DynProto3Value T Nf) (err : Protoflagz.error) :
  watching u = true ->
  watcher_Next (context u) watcher (etcdKeys u) = (Ok resp, watcher', st) ->
  nodeToFlagName u (RNode resp) = Ok flagName ->
  Value (RNode resp) <> "" ->
  flagSet u !! flagName = Some (mkFlag d true) ->
  valid d ->
  snd (Set_ (Value (RNode resp)) d) = Some err ->
  let u' := fst (watchIteration watcher u) in
  (exists d',
      flagSet u' !! flagName = Some (mkFlag d' true)
      /\ Get d' = Get d
      /\ load d' (Get d') = load d (Get d)
      /\ notified d' = notified d)
  /\ calls u' = (calls u ++ [CallNext; rollbackCall resp])%list
  /\ snd (watchIteration watcher u) = Continue watcher'.
Proof.
  intros Hw Hnext Hname Hval Hflag Hv Herr u'.
  set (d1 := fst (Set_ (Value (RNode resp)) d)).
  assert (Hset : setFlag flagName (Value (RNode resp)) true (received resp st u)
                 = (with_flagSet (<[flagName := mkFlag d1 true]> (flagSet u))
                      (received resp st u),
                    Some (errorString err))).
  { unfold setFlag. destruct (String.eqb_spec (Value (RNode resp)) "") as [|_]; [done|].
    simpl. rewrite Hflag. simpl. unfold value_Set, dynValue. subst d1.
    destruct (Set_ (Value (RNode resp)) d) as [d2 e]. simpl in *. by rewrite Herr. }
  pose proof (watchIteration_failed watcher watcher' u resp st flagName _ _
                Hw Hnext Hname Hset ltac:(done) ltac:(done)) as Hit.
  subst u'. rewrite Hit. cbn [fst snd].
  match goal with |- context [rollbackEtcdValue ?n ?r ?x] =>
    destruct (rollbackEtcdValue_once n r x) as (Hc & _ & Hf & _); [done|] end.
  rewrite Hc, Hf. simpl. repeat split.
  - exists d1. rewrite lookup_insert_eq. split; [done|].
    subst d1. revert Herr. rewrite Set_cases. cbv zeta.
    destruct (snd (chosenParser (Value (RNode resp))));
      [|destruct (match validator d with Some check => _ | None => None end);
        [|done]];
      intros _; unfold Get; cbn [fst ptr notified];
      (repeat split; [by apply load_old]).
  - by rewrite <- (assoc_L (++)).
Qed.

(** X20. A flag made by [DynProto3] takes part in watching.  The
registration succeeds exactly on a name that is not defined yet, adds
the flag marked dynamic with the given struct as its value and leaves
the other flags alone; and a watched change of that flag whose text the
value accepts is applied: the flag then returns the parsed struct from
[Get], the struct it started with is still intact, and nothing is
written to the store. *)
Theorem DynProto3_flag_takes_watched_changes
    (set0 set1 : gmap string (Flag (DynProto3Value T Nf))) (name : string) (value : T)
    (d0 : DynProto3Value T Nf)
    (watcher watcher' : W) (u : Updater) (resp : Response) (st : S) :
  DynProto3In set0 name value = Some (set1, d0) ->
  flagSet u = set1 ->
  watching u = true ->
  watcher_Next (context u) watcher (etcdKeys u) = (Ok resp, watcher', st) ->
  nodeToFlagName u (RNode resp) = Ok name ->
  Value (RNode resp) <> "" ->
  snd (Set_ (Value (RNode resp)) d0) = None ->
  let u' := fst (watchIteration watcher u) in
  (set0 !! name = None
   /\ set1 !! name = Some (mkFlag d0 true)
   /\ (forall other, other <> name -> set1 !! other = set0 !! other)
   /\ load d0 (Get d0) = value)
  /\ (exists d',
        flagSet u' !! name = Some (mkFlag d' true)
        /\ load d' (Get d') = fst (chosenParser (Value (RNode resp)))
        /\ load d' (Get d0) = value)
  /\ calls u' = (calls u ++ [CallNext])%list.
Proof.
  intros Hreg Hset1 Hw Hnext Hname Hval Hok u'.
  unfold DynProto3In, VarPF, MarkFlagDynamic in Hreg.
  destruct (set0 !! name) eqn:Hfree; [done|].
  simpl in Hreg. rewrite insert_insert_eq in Hreg. injection Hreg as <- <-.
  assert (Hflag : flagSet u !! name = Some (mkFlag (DynProto3 value) true))
    by (rewrite Hset1; apply lookup_insert_eq).
  split; [|split].
  - repeat split; try done;
      first [apply lookup_insert_eq | by intros; apply lookup_insert_ne].
  - subst u'. unfold watchIteration. rewrite Hw, Hnext. simpl.
    rewrite (nodeToFlagName_path u) by done. rewrite Hname.
    unfold setFlag. destruct (String.eqb_spec (Value (RNode resp)) "") as [|_]; [done|].
    simpl. rewrite Hflag. simpl. unfold value_Set, dynValue.
    pose proof (Set_cases (Nf := Nf) (Value (RNode resp)) (DynProto3 value)) as Hc.
    cbv zeta in Hc. revert Hok. rewrite Hc.
    destruct (snd (chosenParser (Value (RNode resp)))); [done|]. simpl.
    intros _. eexists. rewrite lookup_insert_eq. split; [done|].
    split; [apply (load_fresh (DynProto3 value))|done].
  - subst u'. unfold watchIteration. rewrite Hw, Hnext. simpl.
    rewrite (nodeToFlagName_path u) by done. rewrite Hname.
    unfold setFlag. destruct (String.eqb_spec (Value (RNode resp)) "") as [|_]; [done|].
    simpl. rewrite Hflag. simpl. unfold value_Set, dynValue.
    destruct (Set_ (Value (RNode resp)) (DynProto3 value)) as [d2 e]. simpl in Hok.
    by subst e.
Qed.

End Facts.

(** *** The statements on the toggle under the scripted store *)

Import Fixture Toggle DynFixture.

Lemma refused_text_never_reaches_Get_witness :
  calls (fst (watchIteration 5%N (watchingToggle "{nonsense}")))
  = [CallNext; CallDelete "/config/toggle" 7]
  /\ snd (watchIteration 5%N (watchingToggle "{nonsense}")) = Continue 8%N.
Proof.
  pose proof (refused_text_never_reaches_Get
                5%N 8%N (watchingToggle "{nonsense}") (eventToggle "{nonsense}")
                (mkScript (Ok snapshotUnknown) [] None) "toggle" (DynProto3 false)
                "invalid character looking for beginning of value"
                eq_refl eq_refl eq_refl ltac:(discriminate) eq_refl (le_n 1) eq_refl)
    as (_ & H2 & H3).
  exact (conj H2 H3).
Defined.

Lemma DynProto3_flag_takes_watched_changes_witness :
  (exists d',
      flagSet (fst (watchIteration 5%N (watchingToggle jsonTrue))) !! "toggle"
      = Some (mkFlag d' true)
      /\ load d' (Get d') = true
      /\ load d' 0 = false)
  /\ calls (fst (watchIteration 5%N (watchingToggle jsonTrue))) = [CallNext].
Proof.
  pose proof (DynProto3_flag_takes_watched_changes
                ∅ toggleFlags "toggle" false (DynProto3 false)
                5%N 8%N (watchingToggle jsonTrue) (eventToggle jsonTrue)
                (mkScript (Ok snapshotUnknown) [] None)
                eq_refl eq_refl eq_refl eq_refl eq_refl ltac:(discriminate) eq_refl)
    as (_ & H2 & H3).
  exact (conj H2 H3).
Defined.

End DynFlagFacts.
